(** * Shallow embedding of the PSP serial stub (src/PspSerialStub/main.c)

    The stub state [PSPSTUBSTATE] is a record threaded explicitly through
    every function.  The hardware the stub talks to (the UART driver, the
    millisecond timekeeper, the 32-bit control registers of the mapping
    windows and the local address space) is part of that state as an
    explicit environment, so each function of main.c becomes a function
    [St -> St * result]. *)

From Stdlib Require Import ZArith Lia Bool.
From stdpp Require Import base list gmap.

Open Scope Z_scope.

(* ------------------------------------------------------------------ *)
(** ** Machine words *)

(** uint32_t arithmetic wraps modulo 2^32. *)
Definition wrap32 (z : Z) : Z := z mod 2 ^ 32.

(** Little-endian encoding of [n] bytes of [v] (two's complement for
    negative values, as a C store of an int32_t does). *)
Definition le_bytes (n : nat) (v : Z) : list Z :=
  map (fun i => Z.land (Z.shiftr v (8 * Z.of_nat i)) 255) (seq 0 n).

(** Little-endian decoding of a byte list. *)
Fixpoint le_val (bs : list Z) : Z :=
  match bs with
  | [] => 0
  | b :: bs' => b + 256 * le_val bs'
  end.

(** [bs[off .. off+n)] *)
Definition sublist (off n : nat) (bs : list Z) : list Z := take n (drop off bs).

(** The checksum loops of pspStubPduSend and pspStubPduValidate:
    [uint32_t uChkSum = 0; for (...) uChkSum += b;] *)
Definition chksum_add (acc : Z) (bs : list Z) : Z :=
  fold_left (fun s b => wrap32 (s + b)) bs acc.

(** The plain sum of a byte list, to state the checksum identity. *)
Definition zsum (bs : list Z) : Z := fold_right Z.add 0 bs.

(* ------------------------------------------------------------------ *)
(** ** Constants *)

(** Modelled from the spec: err.h is not under src/.  Only success
    ([INF_SUCCESS = 0]), the informational try-again status and the two
    error codes named by the spec matter; their values are placeholders
    (errors negative, information positive). *)
Definition INF_SUCCESS : Z := 0.
Definition INF_TRY_AGAIN : Z := 1.
Definition ERR_INVALID_PARAMETER : Z := -1.
Definition ERR_INVALID_STATE : Z := -2.

Definition PSP_SERIAL_STUB_INDEFINITE_WAIT : Z := 4294967295.

(** Modelled from the spec: psp-serial-stub.h is not under src/.  The
    four magics are distinct non-zero 32-bit constants (placeholder
    values). *)
Definition PSP_SERIAL_EXT_2_PSP_PDU_START_MAGIC : Z := 1163147296.
Definition PSP_SERIAL_EXT_2_PSP_PDU_END_MAGIC : Z := 1163150660.
Definition PSP_SERIAL_PSP_2_EXT_PDU_START_MAGIC : Z := 1347637280.
Definition PSP_SERIAL_PSP_2_EXT_PDU_END_MAGIC : Z := 1347640644.

(** Modelled from the spec: the request/response/notification
    enumeration PSPSERIALPDURRNID of psp-serial-stub.h.  Request values
    are contiguous from [PSPSERIALPDURRNID_REQUEST_FIRST] up to (not
    including) [PSPSERIALPDURRNID_REQUEST_INVALID_FIRST]; each response
    value differs from its request. *)
Definition PSPSERIALPDURRNID_INVALID : Z := 0.
Definition PSPSERIALPDURRNID_REQUEST_FIRST : Z := 1.
Definition PSPSERIALPDURRNID_REQUEST_CONNECT : Z := 1.
Definition PSPSERIALPDURRNID_REQUEST_PSP_MEM_READ : Z := 2.
Definition PSPSERIALPDURRNID_REQUEST_PSP_MEM_WRITE : Z := 3.
Definition PSPSERIALPDURRNID_REQUEST_PSP_MMIO_READ : Z := 4.
Definition PSPSERIALPDURRNID_REQUEST_PSP_MMIO_WRITE : Z := 5.
Definition PSPSERIALPDURRNID_REQUEST_PSP_SMN_READ : Z := 6.
Definition PSPSERIALPDURRNID_REQUEST_PSP_SMN_WRITE : Z := 7.
Definition PSPSERIALPDURRNID_REQUEST_PSP_X86_MEM_READ : Z := 8.
Definition PSPSERIALPDURRNID_REQUEST_PSP_X86_MEM_WRITE : Z := 9.
Definition PSPSERIALPDURRNID_REQUEST_PSP_X86_MMIO_READ : Z := 10.
Definition PSPSERIALPDURRNID_REQUEST_PSP_X86_MMIO_WRITE : Z := 11.
Definition PSPSERIALPDURRNID_REQUEST_INVALID_FIRST : Z := 12.
Definition PSPSERIALPDURRNID_RESPONSE_CONNECT : Z := 257.
Definition PSPSERIALPDURRNID_RESPONSE_PSP_MEM_READ : Z := 258.
Definition PSPSERIALPDURRNID_RESPONSE_PSP_MEM_WRITE : Z := 259.
Definition PSPSERIALPDURRNID_RESPONSE_PSP_MMIO_READ : Z := 260.
Definition PSPSERIALPDURRNID_RESPONSE_PSP_MMIO_WRITE : Z := 261.
Definition PSPSERIALPDURRNID_RESPONSE_PSP_SMN_READ : Z := 262.
Definition PSPSERIALPDURRNID_RESPONSE_PSP_SMN_WRITE : Z := 263.
Definition PSPSERIALPDURRNID_RESPONSE_PSP_X86_MEM_READ : Z := 264.
Definition PSPSERIALPDURRNID_RESPONSE_PSP_X86_MEM_WRITE : Z := 265.
Definition PSPSERIALPDURRNID_RESPONSE_PSP_X86_MMIO_READ : Z := 266.
Definition PSPSERIALPDURRNID_RESPONSE_PSP_X86_MMIO_WRITE : Z := 267.
Definition PSPSERIALPDURRNID_NOTIFICATION_BEACON : Z := 513.
Definition PSPSERIALPDURRNID_NOTIFICATION_LOG_MSG : Z := 514.

(** Modelled from the spec: NIL_X86PADDR of types.h, the "none" base of
    an unused x86 mapping slot (all ones, never 64 MiB aligned). *)
Definition NIL_X86PADDR : Z := 2 ^ 64 - 1.

Definition _1K : Z := 1024.
Definition _4K : Z := 4096.
Definition _1M : Z := 2 ^ 20.
Definition _64M : Z := 2 ^ 26.

(* ------------------------------------------------------------------ *)
(** ** PDU header and footer *)

(** PSPSERIALPDUHDR: [u32Magic] followed by the union [u] whose field
    view is [u.Fields] and whose byte view is [u.ab]. *)
Record PSPSERIALPDUHDR := mkHdr {
  u32Magic : Z;
  cbPdu : Z;
  cPdus : Z;
  enmRrnId : Z;
  idCcd : Z;
  rcReq : Z;
  tsMillies : Z
}.

(** Modelled from the spec: the layout of [u.Fields] (section 6 of the
    spec): payload length (4), counter (4), tag (2), unit id (2), status
    code (4), timestamp (4).  [u.ab] is this byte view; the start magic
    is a separate member of the header and not part of [u.ab]. *)
Definition hdr_u_ab (h : PSPSERIALPDUHDR) : list Z :=
  le_bytes 4 (cbPdu h) ++ le_bytes 4 (cPdus h) ++ le_bytes 2 (enmRrnId h)
  ++ le_bytes 2 (idCcd h) ++ le_bytes 4 (rcReq h) ++ le_bytes 4 (tsMillies h).

(** The header as written to the UART: magic, then [u]. *)
Definition hdr_bytes (h : PSPSERIALPDUHDR) : list Z :=
  le_bytes 4 (u32Magic h) ++ hdr_u_ab h.

(** The header read back from the bytes of a buffer (the cast
    [(PCPSPSERIALPDUHDR)&pThis->abPdu[0]]). *)
Definition hdr_decode (bs : list Z) : PSPSERIALPDUHDR :=
  {| u32Magic := le_val (sublist 0 4 bs);
     cbPdu := le_val (sublist 4 4 bs);
     cPdus := le_val (sublist 8 4 bs);
     enmRrnId := le_val (sublist 12 2 bs);
     idCcd := le_val (sublist 14 2 bs);
     rcReq := le_val (sublist 16 4 bs);
     tsMillies := le_val (sublist 20 4 bs) |}.

(** sizeof(PSPSERIALPDUHDR) and sizeof(PSPSERIALPDUFOOTER). *)
Definition cbHdr : nat := 24.
Definition cbFooter : nat := 8.

(** PSPSERIALPDUFOOTER: checksum, then end magic. *)
Definition footer_bytes (chk magic : Z) : list Z := le_bytes 4 chk ++ le_bytes 4 magic.

(* ------------------------------------------------------------------ *)
(** ** Mapping slots *)

Record PSPX86MAPPING := mkX86Map {
  PhysX86AddrBase : Z;
  uMemType : Z;
  x86_cRefs : Z
}.

Record PSPSMNMAPPING := mkSmnMap {
  SmnAddrBase : Z;
  smn_cRefs : Z
}.

(* ------------------------------------------------------------------ *)
(** ** The hardware environment *)

(** What the stub observes of the outside world.  The UART driver, the
    timekeeper's tick manager and the peer are collaborators outside
    main.c: their answers are oracles indexed by the number of calls made
    so far.
    - [w_ms k]: the value of the k-th pspStubGetMillies call;
    - [w_arrive k]: bytes arriving at the UART before the k-th
      PSPUartGetDataAvail poll; [w_rx] the bytes received but not read;
    - [w_rd_rc k], [w_wr_rc k]: status of the k-th PSPUartRead/Write;
    - [w_tx]: the chunks successfully written by PSPUartWrite, in order;
    - [w_regs]: 32-bit control registers, [w_reg_log] every store to one;
    - [w_mem]: the bytes of the local address space. *)
Record World := mkWorld {
  w_ms : nat -> Z;
  w_nms : nat;
  w_arrive : nat -> list Z;
  w_npoll : nat;
  w_rx : list Z;
  w_rd_rc : nat -> Z;
  w_nrd : nat;
  w_wr_rc : nat -> Z;
  w_nwr : nat;
  w_tx : list (list Z);
  w_regs : gmap Z Z;
  w_reg_log : list (Z * Z);
  w_mem : gmap Z Z
}.

(** PSPSERIALPDURECVSTATE *)
Inductive PSPSERIALPDURECVSTATE :=
| PSPSERIALPDURECVSTATE_INVALID
| PSPSERIALPDURECVSTATE_HDR
| PSPSERIALPDURECVSTATE_PAYLOAD
| PSPSERIALPDURECVSTATE_FOOTER.

(** PSPSTUBSTATE (the logger, the timer and the UART instance are the
    environment [hw]). *)
Record PSPSTUBSTATE := mkSt {
  aX86MapSlots : list PSPX86MAPPING;
  aSmnMapSlots : list PSPSMNMAPPING;
  cCcds : Z;
  fConnected : bool;
  cBeaconsSent : Z;
  cPdusSent : Z;
  cPduRecvNext : Z;
  enmPduRecvState : PSPSERIALPDURECVSTATE;
  cbPduRecvLeft : Z;
  offPduRecv : Z;
  abPdu : list Z;
  hw : World
}.

(** Address of [abScratch] and its size, advertised at connect. *)
Definition PspAddrScratch : Z := 65536.
Definition cbScratch : Z := 16 * _1K.

(** Field updates. *)
Definition set_hw (w : World) (s : PSPSTUBSTATE) : PSPSTUBSTATE :=
  mkSt (aX86MapSlots s) (aSmnMapSlots s) (cCcds s) (fConnected s) (cBeaconsSent s)
       (cPdusSent s) (cPduRecvNext s) (enmPduRecvState s) (cbPduRecvLeft s)
       (offPduRecv s) (abPdu s) w.
Definition set_x86 (m : list PSPX86MAPPING) (s : PSPSTUBSTATE) : PSPSTUBSTATE :=
  mkSt m (aSmnMapSlots s) (cCcds s) (fConnected s) (cBeaconsSent s)
       (cPdusSent s) (cPduRecvNext s) (enmPduRecvState s) (cbPduRecvLeft s)
       (offPduRecv s) (abPdu s) (hw s).
Definition set_smn (m : list PSPSMNMAPPING) (s : PSPSTUBSTATE) : PSPSTUBSTATE :=
  mkSt (aX86MapSlots s) m (cCcds s) (fConnected s) (cBeaconsSent s)
       (cPdusSent s) (cPduRecvNext s) (enmPduRecvState s) (cbPduRecvLeft s)
       (offPduRecv s) (abPdu s) (hw s).
Definition set_fConnected (b : bool) (s : PSPSTUBSTATE) : PSPSTUBSTATE :=
  mkSt (aX86MapSlots s) (aSmnMapSlots s) (cCcds s) b (cBeaconsSent s)
       (cPdusSent s) (cPduRecvNext s) (enmPduRecvState s) (cbPduRecvLeft s)
       (offPduRecv s) (abPdu s) (hw s).
Definition set_cBeaconsSent (n : Z) (s : PSPSTUBSTATE) : PSPSTUBSTATE :=
  mkSt (aX86MapSlots s) (aSmnMapSlots s) (cCcds s) (fConnected s) n
       (cPdusSent s) (cPduRecvNext s) (enmPduRecvState s) (cbPduRecvLeft s)
       (offPduRecv s) (abPdu s) (hw s).
Definition set_cPdusSent (n : Z) (s : PSPSTUBSTATE) : PSPSTUBSTATE :=
  mkSt (aX86MapSlots s) (aSmnMapSlots s) (cCcds s) (fConnected s) (cBeaconsSent s)
       n (cPduRecvNext s) (enmPduRecvState s) (cbPduRecvLeft s)
       (offPduRecv s) (abPdu s) (hw s).
Definition set_cPduRecvNext (n : Z) (s : PSPSTUBSTATE) : PSPSTUBSTATE :=
  mkSt (aX86MapSlots s) (aSmnMapSlots s) (cCcds s) (fConnected s) (cBeaconsSent s)
       (cPdusSent s) n (enmPduRecvState s) (cbPduRecvLeft s)
       (offPduRecv s) (abPdu s) (hw s).
Definition set_recv (e : PSPSERIALPDURECVSTATE) (left off : Z) (s : PSPSTUBSTATE)
  : PSPSTUBSTATE :=
  mkSt (aX86MapSlots s) (aSmnMapSlots s) (cCcds s) (fConnected s) (cBeaconsSent s)
       (cPdusSent s) (cPduRecvNext s) e left off (abPdu s) (hw s).
Definition set_abPdu (b : list Z) (s : PSPSTUBSTATE) : PSPSTUBSTATE :=
  mkSt (aX86MapSlots s) (aSmnMapSlots s) (cCcds s) (fConnected s) (cBeaconsSent s)
       (cPdusSent s) (cPduRecvNext s) (enmPduRecvState s) (cbPduRecvLeft s)
       (offPduRecv s) b (hw s).

(* ------------------------------------------------------------------ *)
(** ** Environment operations *)

Definition w_upd_ms (n : nat) (w : World) : World :=
  mkWorld (w_ms w) n (w_arrive w) (w_npoll w) (w_rx w) (w_rd_rc w) (w_nrd w)
          (w_wr_rc w) (w_nwr w) (w_tx w) (w_regs w) (w_reg_log w) (w_mem w).
Definition w_upd_rx (npoll : nat) (rx : list Z) (nrd : nat) (w : World) : World :=
  mkWorld (w_ms w) (w_nms w) (w_arrive w) npoll rx (w_rd_rc w) nrd
          (w_wr_rc w) (w_nwr w) (w_tx w) (w_regs w) (w_reg_log w) (w_mem w).
Definition w_upd_tx (nwr : nat) (tx : list (list Z)) (w : World) : World :=
  mkWorld (w_ms w) (w_nms w) (w_arrive w) (w_npoll w) (w_rx w) (w_rd_rc w) (w_nrd w)
          (w_wr_rc w) nwr tx (w_regs w) (w_reg_log w) (w_mem w).
Definition w_upd_regs (regs : gmap Z Z) (log : list (Z * Z)) (w : World) : World :=
  mkWorld (w_ms w) (w_nms w) (w_arrive w) (w_npoll w) (w_rx w) (w_rd_rc w) (w_nrd w)
          (w_wr_rc w) (w_nwr w) (w_tx w) regs log (w_mem w).
Definition w_upd_mem (mem : gmap Z Z) (w : World) : World :=
  mkWorld (w_ms w) (w_nms w) (w_arrive w) (w_npoll w) (w_rx w) (w_rd_rc w) (w_nrd w)
          (w_wr_rc w) (w_nwr w) (w_tx w) (w_regs w) (w_reg_log w) mem.

(** pspStubGetMillies: the timekeeper's millisecond count (uint32_t). *)
Definition pspStubGetMillies (s : PSPSTUBSTATE) : PSPSTUBSTATE * Z :=
  let w := hw s in
  (set_hw (w_upd_ms (S (w_nms w)) w) s, wrap32 (w_ms w (w_nms w))).

(** PSPUartGetDataAvail *)
Definition PSPUartGetDataAvail (s : PSPSTUBSTATE) : PSPSTUBSTATE * Z :=
  let w := hw s in
  let rx := w_rx w ++ w_arrive w (w_npoll w) in
  (set_hw (w_upd_rx (S (w_npoll w)) rx (w_nrd w) w) s, Z.of_nat (length rx)).

(** PSPUartRead of [n] bytes: the bytes read, in order, on success. *)
Definition PSPUartRead (s : PSPSTUBSTATE) (n : Z) : PSPSTUBSTATE * Z * list Z :=
  let w := hw s in
  let rc := w_rd_rc w (w_nrd w) in
  if rc =? 0
  then (set_hw (w_upd_rx (w_npoll w) (drop (Z.to_nat n) (w_rx w)) (S (w_nrd w)) w) s,
        rc, take (Z.to_nat n) (w_rx w))
  else (set_hw (w_upd_rx (w_npoll w) (w_rx w) (S (w_nrd w)) w) s, rc, []).

(** PSPUartWrite of a chunk of bytes. *)
Definition PSPUartWrite (s : PSPSTUBSTATE) (bs : list Z) : PSPSTUBSTATE * Z :=
  let w := hw s in
  let rc := w_wr_rc w (w_nwr w) in
  if rc =? 0
  then (set_hw (w_upd_tx (S (w_nwr w)) (w_tx w ++ [bs]) w) s, rc)
  else (set_hw (w_upd_tx (S (w_nwr w)) (w_tx w) w) s, rc).

(** [*(volatile uint32_t * )addr = v] and the matching load. *)
Definition reg_store (a v : Z) (s : PSPSTUBSTATE) : PSPSTUBSTATE :=
  let w := hw s in
  set_hw (w_upd_regs (<[a := v]> (w_regs w)) (w_reg_log w ++ [(a, v)]) w) s.
Definition reg_load (a : Z) (s : PSPSTUBSTATE) : Z :=
  default 0 (w_regs (hw s) !! a).

(** Byte accesses to the local address space. *)
Definition mem_read (a : Z) (n : nat) (s : PSPSTUBSTATE) : list Z :=
  map (fun i => default 0 (w_mem (hw s) !! (a + Z.of_nat i))) (seq 0 n).
Fixpoint mem_write_aux (a : Z) (bs : list Z) (m : gmap Z Z) : gmap Z Z :=
  match bs with
  | [] => m
  | b :: bs' => mem_write_aux (a + 1) bs' (<[a := b]> m)
  end.
Definition mem_write (a : Z) (bs : list Z) (s : PSPSTUBSTATE) : PSPSTUBSTATE :=
  set_hw (w_upd_mem (mem_write_aux a bs (w_mem (hw s))) (hw s)) s.

(* ------------------------------------------------------------------ *)
(** ** Sending (pspStubPduSend) *)

(** The header initialisation of pspStubPduSend, with the counter and the
    timestamp already taken. *)
Definition pspStubPduHdrInit (cPdusNew ts rcReq0 idCcd0 enm : Z) (payload : list Z)
  : PSPSERIALPDUHDR :=
  {| u32Magic := PSP_SERIAL_PSP_2_EXT_PDU_START_MAGIC;
     cbPdu := wrap32 (Z.of_nat (length payload));
     cPdus := cPdusNew;
     enmRrnId := enm;
     idCcd := idCcd0;
     rcReq := rcReq0;
     tsMillies := ts |}.

(** [PduFooter.u32ChkSum = (0xffffffff - uChkSum) + 1] with [uChkSum]
    summed over [PduHdr.u.ab] and the payload. *)
Definition pspStubPduChkSum (h : PSPSERIALPDUHDR) (payload : list Z) : Z :=
  let uChkSum := chksum_add (chksum_add 0 (hdr_u_ab h)) payload in
  wrap32 ((4294967295 - uChkSum) + 1).

(** The first half of pspStubPduSend: [++pThis->cPdusSent], the
    timestamp, and the header. *)
Definition pspStubPduSendHdr (s : PSPSTUBSTATE) (rcReq0 idCcd0 enm : Z) (payload : list Z)
  : PSPSTUBSTATE * PSPSERIALPDUHDR :=
  let cPdusNew := wrap32 (cPdusSent s + 1) in
  let s := set_cPdusSent cPdusNew s in
  let '(s, ts) := pspStubGetMillies s in
  (s, pspStubPduHdrInit cPdusNew ts rcReq0 idCcd0 enm payload).

(** The second half: the footer and the three UART writes. *)
Definition pspStubPduSendFrame (s : PSPSTUBSTATE) (h : PSPSERIALPDUHDR) (payload : list Z)
  : PSPSTUBSTATE * Z :=
  let chk := pspStubPduChkSum h payload in
  let '(s, rc) := PSPUartWrite s (hdr_bytes h) in
  let '(s, rc) :=
    if (rc =? 0) && negb (bool_decide (payload = [])) then PSPUartWrite s payload
    else (s, rc) in
  if rc =? 0 then PSPUartWrite s (footer_bytes chk PSP_SERIAL_PSP_2_EXT_PDU_END_MAGIC)
  else (s, rc).

Definition pspStubPduSend (s : PSPSTUBSTATE) (rcReq0 idCcd0 enm : Z) (payload : list Z)
  : PSPSTUBSTATE * Z :=
  let '(s, h) := pspStubPduSendHdr s rcReq0 idCcd0 enm payload in
  pspStubPduSendFrame s h payload.

(** Successive calls of pspStubPduSend, one per [(rcReq, idCcd, enmPduRrnId,
    payload)]; besides the final state, the counters stamped into the
    headers built on the way. *)
Fixpoint pspStubPduSendSeq (s : PSPSTUBSTATE) (reqs : list (Z * Z * Z * list Z))
  : PSPSTUBSTATE * list Z :=
  match reqs with
  | [] => (s, [])
  | (rcReq0, idCcd0, enm, payload) :: reqs' =>
      let '(s, h) := pspStubPduSendHdr s rcReq0 idCcd0 enm payload in
      let '(s, _) := pspStubPduSendFrame s h payload in
      let '(s, cs) := pspStubPduSendSeq s reqs' in
      (s, cPdus h :: cs)
  end.

(* ------------------------------------------------------------------ *)
(** ** Receiving *)

(** [PSPUartRead(&pThis->abPdu[off], ...)] stores the bytes read there. *)
Definition buf_write (off : Z) (bs buf : list Z) : list Z :=
  take (Z.to_nat off) buf ++ bs ++ drop (Z.to_nat off + length bs) buf.

Definition pspStubPduRecvReset (s : PSPSTUBSTATE) : PSPSTUBSTATE :=
  set_recv PSPSERIALPDURECVSTATE_HDR (Z.of_nat cbHdr) 0 s.

Definition pspStubPduHdrValidate (s : PSPSTUBSTATE) (h : PSPSERIALPDUHDR) : Z :=
  if negb (u32Magic h =? PSP_SERIAL_EXT_2_PSP_PDU_START_MAGIC) then -1
  else if cbPdu h >? _4K - Z.of_nat cbHdr - Z.of_nat cbFooter then -1
  else if (enmRrnId h <? PSPSERIALPDURRNID_REQUEST_FIRST)
          || (enmRrnId h >=? PSPSERIALPDURRNID_REQUEST_INVALID_FIRST) then -1
  else if negb (cPdus h =? cPduRecvNext s) then -1
  else if idCcd h >=? cCcds s then -1
  else 0.

(** pspStubPduValidate on the PDU held in [abPdu]: the sum runs over
    [pHdr->u.ab] (bytes 4..24) and the payload; the footer follows the
    payload. *)
Definition pspStubPduValidate (s : PSPSTUBSTATE) : Z :=
  let buf := abPdu s in
  let h := hdr_decode buf in
  let cb := Z.to_nat (cbPdu h) in
  let uChkSum := chksum_add (chksum_add 0 (sublist 4 20 buf)) (sublist cbHdr cb buf) in
  let chk := le_val (sublist (cbHdr + cb) 4 buf) in
  let magic := le_val (sublist (cbHdr + cb + 4) 4 buf) in
  if negb (wrap32 (uChkSum + chk) =? 0)
     || negb (magic =? PSP_SERIAL_EXT_2_PSP_PDU_END_MAGIC)
  then -1 else 0.

(** pspStubPduRecvAdvance: the new state, the status, and whether
    [*ppPduRcvd] was set to the received PDU (it is reset to NULL first). *)
Definition pspStubPduRecvAdvance (s : PSPSTUBSTATE) : PSPSTUBSTATE * Z * bool :=
  match enmPduRecvState s with
  | PSPSERIALPDURECVSTATE_HDR =>
      let h := hdr_decode (abPdu s) in
      let rc2 := pspStubPduHdrValidate s h in
      if rc2 =? 0 then
        if negb (cbPdu h =? 0)
        then (set_recv PSPSERIALPDURECVSTATE_PAYLOAD (cbPdu h) (offPduRecv s) s, 0, false)
        else (set_recv PSPSERIALPDURECVSTATE_FOOTER (Z.of_nat cbFooter) (offPduRecv s) s,
              0, false)
      else (pspStubPduRecvReset s, 0, false)
  | PSPSERIALPDURECVSTATE_PAYLOAD =>
      (set_recv PSPSERIALPDURECVSTATE_FOOTER (Z.of_nat cbFooter) (offPduRecv s) s, 0, false)
  | PSPSERIALPDURECVSTATE_FOOTER =>
      let rc := pspStubPduValidate s in
      if rc =? 0
      then (pspStubPduRecvReset (set_cPduRecvNext (wrap32 (cPduRecvNext s + 1)) s), rc, true)
      else (pspStubPduRecvReset s, rc, false)
  | PSPSERIALPDURECVSTATE_INVALID => (s, ERR_INVALID_STATE, false)
  end.

(** One pass through the body of the do-while loop of pspStubPduRecv:
    the new state, [rc], [pPduRcvd] and whether the loop was left by
    [break]. *)
Definition pspStubPduRecvBody (s : PSPSTUBSTATE) (rc : Z) (pdu : bool)
  : PSPSTUBSTATE * Z * bool * bool :=
  let '(s, cbAvail) := PSPUartGetDataAvail s in
  if cbAvail =? 0 then (s, rc, pdu, false)
  else
    let cbThisRecv := Z.min cbAvail (cbPduRecvLeft s) in
    let '(s, rc, bs) := PSPUartRead s cbThisRecv in
    if rc =? 0 then
      let s := set_abPdu (buf_write (offPduRecv s) bs (abPdu s)) s in
      let s := set_recv (enmPduRecvState s) (cbPduRecvLeft s - cbThisRecv)
                        (wrap32 (offPduRecv s + cbThisRecv)) s in
      if cbPduRecvLeft s =? 0 then
        let '(s, rc, pdu) := pspStubPduRecvAdvance s in
        (s, rc, pdu, (rc =? 0) && pdu)
      else (s, rc, pdu, false)
    else (s, rc, pdu, false).

(** The loop condition
    [!rc && (pspStubGetMillies(pThis) - tsStartMs < cMillies)
     || (cMillies == PSP_SERIAL_STUB_INDEFINITE_WAIT)]
    (&& binds tighter than ||; the clock is read only when [!rc]). *)
Definition pspStubPduRecvCond (s : PSPSTUBSTATE) (rc tsStartMs cMillies : Z)
  : PSPSTUBSTATE * bool :=
  let '(s, b) :=
    if rc =? 0 then
      let '(s, now) := pspStubGetMillies s in (s, wrap32 (now - tsStartMs) <? cMillies)
    else (s, false) in
  (s, b || (cMillies =? PSP_SERIAL_STUB_INDEFINITE_WAIT)).

(** The do-while loop, with [fuel] passes at most ([None]: still looping
    when the fuel ran out). *)
Fixpoint pspStubPduRecvLoop (fuel : nat) (s : PSPSTUBSTATE) (rc : Z) (pdu : bool)
  (tsStartMs cMillies : Z) : option (PSPSTUBSTATE * Z * bool) :=
  match fuel with
  | O => None
  | S fuel' =>
      let '(s, rc, pdu, brk) := pspStubPduRecvBody s rc pdu in
      if brk then Some (s, rc, pdu)
      else
        let '(s, cont) := pspStubPduRecvCond s rc tsStartMs cMillies in
        if cont then pspStubPduRecvLoop fuel' s rc pdu tsStartMs cMillies
        else Some (s, rc, pdu)
  end.

(** pspStubPduRecv: the final state, the status and whether a PDU was
    handed back (the caller's [pPdu] starts out as NULL). *)
Definition pspStubPduRecv (fuel : nat) (s : PSPSTUBSTATE) (cMillies : Z)
  : option (PSPSTUBSTATE * Z * bool) :=
  let '(s, tsStartMs) := pspStubGetMillies s in
  match pspStubPduRecvLoop fuel s INF_SUCCESS false tsStartMs cMillies with
  | None => None
  | Some (s, rc, pdu) =>
      let '(s, now) := pspStubGetMillies s in
      let rc := if wrap32 (tsStartMs + now) >=? cMillies then INF_TRY_AGAIN else rc in
      Some (s, rc, pdu)
  end.

(* ------------------------------------------------------------------ *)
(** ** The x86 mapping window allocator *)

(** The candidate test of the search loop of pspStubX86PhysMap. *)
Definition x86_slot_candidate (base memtype : Z) (m : PSPX86MAPPING) : bool :=
  ((PhysX86AddrBase m =? NIL_X86PADDR) && (x86_cRefs m =? 0))
  || ((PhysX86AddrBase m =? base) && (uMemType m =? memtype)).

(** [for (i = 0; i < ELEMENTS(...); i++) if (...) { ...; break; }] *)
Fixpoint x86_find_slot (base memtype : Z) (i : nat) (slots : list PSPX86MAPPING)
  : option (nat * PSPX86MAPPING) :=
  match slots with
  | [] => None
  | m :: slots' =>
      if x86_slot_candidate base memtype m then Some (i, m)
      else x86_find_slot base memtype (S i) slots'
  end.

(** The six control-register stores made when slot [idx] is set up, in
    program order. *)
Definition x86_slot_program_stores (idx : nat) (base memtype : Z) : list (Z * Z) :=
  let i := Z.of_nat idx in
  let PspAddrSlotBase := 52625408 + i * 4 * 4 in
  [(PspAddrSlotBase,
    wrap32 (Z.lor (Z.shiftl (Z.shiftr base 32) 6) (Z.land (Z.shiftr base 26) 63)));
   (PspAddrSlotBase + 4, 18);
   (PspAddrSlotBase + 8, memtype);
   (PspAddrSlotBase + 12, memtype);
   (52626400 + i * 4, 4294967295);
   (52626648 + i * 4, 3221225472)].

(** The stores made when the last reference of slot [idx] goes away. *)
Definition x86_slot_clear_stores (idx : nat) : list (Z * Z) :=
  let i := Z.of_nat idx in
  let PspAddrSlotBase := 52625408 + i * 4 * 4 in
  [(PspAddrSlotBase, 0); (PspAddrSlotBase + 4, 0); (PspAddrSlotBase + 8, 0);
   (PspAddrSlotBase + 12, 0); (52626400 + i * 4, 4294967295); (52626648 + i * 4, 0)].

(** A run of volatile 32-bit stores, in order. *)
Definition reg_stores (l : list (Z * Z)) (s : PSPSTUBSTATE) : PSPSTUBSTATE :=
  fold_left (fun s av => reg_store (fst av) (snd av) s) l s.

Definition x86_slot_program (idx : nat) (base memtype : Z) (s : PSPSTUBSTATE)
  : PSPSTUBSTATE :=
  reg_stores (x86_slot_program_stores idx base memtype) s.

Definition x86_slot_clear (idx : nat) (s : PSPSTUBSTATE) : PSPSTUBSTATE :=
  reg_stores (x86_slot_clear_stores idx) s.

(** pspStubX86PhysMap: the new state, the status and [*ppv]
    (0 when not written). *)
Definition pspStubX86PhysMap (s : PSPSTUBSTATE) (PhysX86Addr : Z) (fMmio : bool)
  : PSPSTUBSTATE * Z * Z :=
  let uMemTypeReq := if fMmio then 6 else 4 in
  let base := Z.land PhysX86Addr (Z.lnot (_64M - 1)) in
  let offStart := wrap32 (PhysX86Addr - base) in
  match x86_find_slot base uMemTypeReq 0 (aX86MapSlots s) with
  | Some (idx, m) =>
      let '(s, m) :=
        if PhysX86AddrBase m =? NIL_X86PADDR
        then let m := mkX86Map base uMemTypeReq (x86_cRefs m) in
             (x86_slot_program idx base uMemTypeReq
                (set_x86 (<[idx := m]> (aX86MapSlots s)) s), m)
        else (s, m) in
      let m := mkX86Map (PhysX86AddrBase m) (uMemType m) (wrap32 (x86_cRefs m + 1)) in
      (set_x86 (<[idx := m]> (aX86MapSlots s)) s, INF_SUCCESS,
       wrap32 (67108864 + Z.of_nat idx * _64M + offStart))
  | None => (s, ERR_INVALID_STATE, 0)
  end.

Definition pspStubX86PhysUnmapByPtr (s : PSPSTUBSTATE) (pv : Z) : PSPSTUBSTATE * Z :=
  let PspAddrMapBase := wrap32 (Z.land pv (Z.lnot (_64M - 1)) - 67108864) in
  let idxSlot := PspAddrMapBase / _64M in
  if (idxSlot <? Z.of_nat (length (aX86MapSlots s))) && (PspAddrMapBase mod _64M =? 0) then
    match aX86MapSlots s !! Z.to_nat idxSlot with
    | Some m =>
        if negb (x86_cRefs m =? 0) then
          let cRefs := x86_cRefs m - 1 in
          if cRefs =? 0 then
            (x86_slot_clear (Z.to_nat idxSlot)
               (set_x86 (<[Z.to_nat idxSlot := mkX86Map NIL_X86PADDR 0 0]> (aX86MapSlots s)) s),
             INF_SUCCESS)
          else
            (set_x86 (<[Z.to_nat idxSlot := mkX86Map (PhysX86AddrBase m) (uMemType m) cRefs]>
                        (aX86MapSlots s)) s, INF_SUCCESS)
        else (s, ERR_INVALID_PARAMETER)
    | None => (s, ERR_INVALID_PARAMETER)
    end
  else (s, ERR_INVALID_PARAMETER).

(* ------------------------------------------------------------------ *)
(** ** The SMN mapping window allocator *)

Definition smn_slot_candidate (base : Z) (m : PSPSMNMAPPING) : bool :=
  ((SmnAddrBase m =? 0) && (smn_cRefs m =? 0)) || (SmnAddrBase m =? base).

Fixpoint smn_find_slot (base : Z) (i : nat) (slots : list PSPSMNMAPPING)
  : option (nat * PSPSMNMAPPING) :=
  match slots with
  | [] => None
  | m :: slots' =>
      if smn_slot_candidate base m then Some (i, m) else smn_find_slot base (S i) slots'
  end.

(** pspStubSmnPhysMap (SMNADDR is 32 bits wide). *)
Definition pspStubSmnPhysMap (s : PSPSTUBSTATE) (SmnAddr : Z) : PSPSTUBSTATE * Z * Z :=
  let base := Z.land SmnAddr (Z.lnot (_1M - 1)) in
  let offStart := wrap32 (SmnAddr - base) in
  match smn_find_slot base 0 (aSmnMapSlots s) with
  | Some (idx, m) =>
      let '(s, m) :=
        if SmnAddrBase m =? 0 then
          let m := mkSmnMap base (smn_cRefs m) in
          let s := set_smn (<[idx := m]> (aSmnMapSlots s)) s in
          let PspAddrSlotBase := 52559872 + (Z.of_nat idx / 2) * 4 in
          let u32RegSmnMapCtrl := reg_load PspAddrSlotBase s in
          let u32RegSmnMapCtrl :=
            if Z.odd (Z.of_nat idx)
            then wrap32 (Z.lor u32RegSmnMapCtrl (Z.shiftl (Z.shiftr base 20) 16))
            else Z.lor u32RegSmnMapCtrl (Z.shiftr base 20) in
          (reg_store PspAddrSlotBase u32RegSmnMapCtrl s, m)
        else (s, m) in
      let m := mkSmnMap (SmnAddrBase m) (wrap32 (smn_cRefs m + 1)) in
      (set_smn (<[idx := m]> (aSmnMapSlots s)) s, INF_SUCCESS,
       wrap32 (16777216 + Z.of_nat idx * _1M + offStart))
  | None => (s, ERR_INVALID_STATE, 0)
  end.

Definition pspStubSmnUnmapByPtr (s : PSPSTUBSTATE) (pv : Z) : PSPSTUBSTATE * Z :=
  let PspAddrMapBase := wrap32 (Z.land pv (Z.lnot (_1M - 1)) - 16777216) in
  let idxSlot := PspAddrMapBase / _1M in
  if (idxSlot <? Z.of_nat (length (aSmnMapSlots s))) && (PspAddrMapBase mod _1M =? 0) then
    match aSmnMapSlots s !! Z.to_nat idxSlot with
    | Some m =>
        if negb (smn_cRefs m =? 0) then
          let cRefs := smn_cRefs m - 1 in
          if cRefs =? 0 then
            let s := set_smn (<[Z.to_nat idxSlot := mkSmnMap 0 0]> (aSmnMapSlots s)) s in
            let PspAddrSlotBase := 52559872 + (idxSlot / 2) * 4 in
            let u32RegSmnMapCtrl := reg_load PspAddrSlotBase s in
            let u32RegSmnMapCtrl :=
              if Z.odd idxSlot then Z.land u32RegSmnMapCtrl 65535
              else Z.land u32RegSmnMapCtrl 4294901760 in
            (reg_store PspAddrSlotBase u32RegSmnMapCtrl s, INF_SUCCESS)
          else
            (set_smn (<[Z.to_nat idxSlot := mkSmnMap (SmnAddrBase m) cRefs]>
                        (aSmnMapSlots s)) s, INF_SUCCESS)
        else (s, ERR_INVALID_PARAMETER)
    | None => (s, ERR_INVALID_PARAMETER)
    end
  else (s, ERR_INVALID_PARAMETER).

(* ------------------------------------------------------------------ *)
(** ** Request processing *)

(** Modelled from the spec: the transfer requests of psp-serial-stub.h
    (PSPSERIALPSPMEMXFERREQ, PSPSERIALSMNMEMXFERREQ,
    PSPSERIALX86MEMXFERREQ) are [{u64 address, u32 length}] followed by
    the bytes to write; [sizeof] counts the u64 alignment padding. *)
Definition cbXferReq : Z := 16.
Definition req_addr (payload : list Z) : Z := le_val (sublist 0 8 payload).
Definition req_cbXfer (payload : list Z) : Z := le_val (sublist 8 4 payload).
(** [pReq + 1]: the bytes following the request (they run on into the
    rest of the receive buffer). *)
Definition req_data (buf : list Z) (n : nat) : list Z :=
  sublist (cbHdr + Z.to_nat cbXferReq) n buf.

(** The payload of the received PDU, [pPdu + 1]. *)
Definition pdu_payload (s : PSPSTUBSTATE) : list Z :=
  drop cbHdr (abPdu s).

(** pspStubMmioAccess: one access of 1, 2, 4 or 8 bytes, nothing for any
    other width.  Reading: the bytes loaded from [pvSrc]. *)
Definition mmio_width_ok (cb : Z) : bool :=
  (cb =? 1) || (cb =? 2) || (cb =? 4) || (cb =? 8).
Definition pspStubMmioRead (pvSrc cb : Z) (s : PSPSTUBSTATE) : list Z :=
  if mmio_width_ok cb then mem_read pvSrc (Z.to_nat cb) s else [].
Definition pspStubMmioWrite (pvDst : Z) (src : list Z) (cb : Z) (s : PSPSTUBSTATE)
  : PSPSTUBSTATE :=
  if mmio_width_ok cb then mem_write pvDst (take (Z.to_nat cb) src) s else s.

Definition pspStubPduProcessPspMemXfer (s : PSPSTUBSTATE) (cbPayload : Z) (fWrite : bool)
  : PSPSTUBSTATE * Z :=
  let pReq := pdu_payload s in
  if cbPayload <? cbXferReq then (s, ERR_INVALID_PARAMETER)
  else
    let cbXfer := req_cbXfer pReq in
    let addr := wrap32 (req_addr pReq) in
    if fWrite then
      let s := mem_write addr (req_data (abPdu s) (Z.to_nat cbXfer)) s in
      pspStubPduSend s INF_SUCCESS 0 PSPSERIALPDURRNID_RESPONSE_PSP_MEM_WRITE []
    else
      pspStubPduSend s INF_SUCCESS 0 PSPSERIALPDURRNID_RESPONSE_PSP_MEM_READ
        (mem_read addr (Z.to_nat cbXfer) s).

Definition pspStubPduProcessPspMmioXfer (s : PSPSTUBSTATE) (cbPayload : Z) (fWrite : bool)
  : PSPSTUBSTATE * Z :=
  let pReq := pdu_payload s in
  if (cbPayload <? cbXferReq) || negb (mmio_width_ok (req_cbXfer pReq))
  then (s, ERR_INVALID_PARAMETER)
  else
    let cbXfer := req_cbXfer pReq in
    let addr := wrap32 (req_addr pReq) in
    if fWrite then
      let s := pspStubMmioWrite addr (req_data (abPdu s) 8) cbXfer s in
      pspStubPduSend s INF_SUCCESS 0 PSPSERIALPDURRNID_RESPONSE_PSP_MEM_WRITE []
    else
      let abRead := pspStubMmioRead addr cbXfer s in
      pspStubPduSend s INF_SUCCESS 0 PSPSERIALPDURRNID_RESPONSE_PSP_MEM_READ abRead.

Definition pspStubPduProcessPspSmnXfer (s : PSPSTUBSTATE) (cbPayload : Z) (fWrite : bool)
  : PSPSTUBSTATE * Z :=
  let pReq := pdu_payload s in
  if (cbPayload <? cbXferReq) || negb (mmio_width_ok (req_cbXfer pReq))
  then (s, ERR_INVALID_PARAMETER)
  else
    let enmResponse := if fWrite then PSPSERIALPDURRNID_RESPONSE_PSP_SMN_WRITE
                       else PSPSERIALPDURRNID_RESPONSE_PSP_SMN_READ in
    let '(s, rc, pvMap) := pspStubSmnPhysMap s (wrap32 (req_addr pReq)) in
    if rc =? 0 then
      let '(s, rc) :=
        if fWrite then
          let s := pspStubMmioWrite pvMap (req_data (abPdu s) 8) (req_cbXfer pReq) s in
          pspStubPduSend s INF_SUCCESS 0 enmResponse []
        else
          pspStubPduSend s INF_SUCCESS 0 enmResponse
            (pspStubMmioRead pvMap (req_cbXfer pReq) s) in
      let '(s, _) := pspStubSmnUnmapByPtr s pvMap in
      (s, rc)
    else pspStubPduSend s rc 0 enmResponse [].

Definition pspStubPduProcessPspX86MemXfer (s : PSPSTUBSTATE) (cbPayload : Z) (fWrite : bool)
  : PSPSTUBSTATE * Z :=
  let pReq := pdu_payload s in
  if cbPayload <? cbXferReq then (s, ERR_INVALID_PARAMETER)
  else
    let enmResponse := if fWrite then PSPSERIALPDURRNID_RESPONSE_PSP_X86_MEM_WRITE
                       else PSPSERIALPDURRNID_RESPONSE_PSP_X86_MEM_READ in
    let '(s, rc, pvMap) := pspStubX86PhysMap s (req_addr pReq) false in
    if rc =? 0 then
      let cbXfer := req_cbXfer pReq in
      let '(s, rc) :=
        if fWrite then
          let s := mem_write pvMap (req_data (abPdu s) (Z.to_nat cbXfer)) s in
          pspStubPduSend s INF_SUCCESS 0 enmResponse []
        else
          pspStubPduSend s INF_SUCCESS 0 enmResponse (mem_read pvMap (Z.to_nat cbXfer) s) in
      let '(s, _) := pspStubX86PhysUnmapByPtr s pvMap in
      (s, rc)
    else pspStubPduSend s rc 0 enmResponse [].

Definition pspStubPduProcessPspX86MmioXfer (s : PSPSTUBSTATE) (cbPayload : Z) (fWrite : bool)
  : PSPSTUBSTATE * Z :=
  let pReq := pdu_payload s in
  if (cbPayload <? cbXferReq) || negb (mmio_width_ok (req_cbXfer pReq))
  then (s, ERR_INVALID_PARAMETER)
  else
    let enmResponse := if fWrite then PSPSERIALPDURRNID_RESPONSE_PSP_X86_MMIO_WRITE
                       else PSPSERIALPDURRNID_RESPONSE_PSP_X86_MMIO_READ in
    let '(s, rc, pvMap) := pspStubX86PhysMap s (req_addr pReq) false in
    if rc =? 0 then
      let '(s, rc) :=
        if fWrite then
          let s := pspStubMmioWrite pvMap (req_data (abPdu s) 8) (req_cbXfer pReq) s in
          pspStubPduSend s INF_SUCCESS 0 enmResponse []
        else
          pspStubPduSend s INF_SUCCESS 0 enmResponse
            (pspStubMmioRead pvMap (req_cbXfer pReq) s) in
      let '(s, _) := pspStubX86PhysUnmapByPtr s pvMap in
      (s, rc)
    else pspStubPduSend s rc 0 enmResponse [].

(** pspStubPduProcess on the PDU held in the receive buffer. *)
Definition pspStubPduProcess (s : PSPSTUBSTATE) : PSPSTUBSTATE * Z :=
  let h := hdr_decode (abPdu s) in
  let id := enmRrnId h in
  let cb := cbPdu h in
  if id =? PSPSERIALPDURRNID_REQUEST_PSP_MEM_READ then pspStubPduProcessPspMemXfer s cb false
  else if id =? PSPSERIALPDURRNID_REQUEST_PSP_MEM_WRITE then pspStubPduProcessPspMemXfer s cb true
  else if id =? PSPSERIALPDURRNID_REQUEST_PSP_MMIO_READ then pspStubPduProcessPspMmioXfer s cb false
  else if id =? PSPSERIALPDURRNID_REQUEST_PSP_MMIO_WRITE then pspStubPduProcessPspMmioXfer s cb true
  else if id =? PSPSERIALPDURRNID_REQUEST_PSP_SMN_READ then pspStubPduProcessPspSmnXfer s cb false
  else if id =? PSPSERIALPDURRNID_REQUEST_PSP_SMN_WRITE then pspStubPduProcessPspSmnXfer s cb true
  else if id =? PSPSERIALPDURRNID_REQUEST_PSP_X86_MEM_READ then pspStubPduProcessPspX86MemXfer s cb false
  else if id =? PSPSERIALPDURRNID_REQUEST_PSP_X86_MEM_WRITE then pspStubPduProcessPspX86MemXfer s cb true
  else if id =? PSPSERIALPDURRNID_REQUEST_PSP_X86_MMIO_READ then pspStubPduProcessPspX86MmioXfer s cb false
  else if id =? PSPSERIALPDURRNID_REQUEST_PSP_X86_MMIO_WRITE then pspStubPduProcessPspX86MmioXfer s cb true
  else (s, INF_SUCCESS).

(* ------------------------------------------------------------------ *)
(** ** Session control *)

(** Modelled from the spec: PSPSERIALCONNECTRESP of psp-serial-stub.h,
    six 32-bit words: max PDU size, scratch size, scratch address,
    sockets, CCDs per socket, padding. *)
Definition connect_resp : list Z :=
  le_bytes 4 _4K ++ le_bytes 4 cbScratch ++ le_bytes 4 PspAddrScratch
  ++ le_bytes 4 1 ++ le_bytes 4 1 ++ le_bytes 4 0.

(** The tag of the PDU handed back by pspStubPduRecv: the header in the
    receive buffer; when no PDU was handed back the pointer is NULL, and
    address 0 of the PSP is SRAM, so the tag is read from there. *)
Definition rcvd_tag (s : PSPSTUBSTATE) (pdu : bool) : Z :=
  if pdu then enmRrnId (hdr_decode (abPdu s))
  else enmRrnId (hdr_decode (mem_read 0 cbHdr s)).

Definition pspStubCheckConnection (fuel : nat) (s : PSPSTUBSTATE) (cMillies : Z)
  : option (PSPSTUBSTATE * Z) :=
  match pspStubPduRecv fuel s cMillies with
  | None => None
  | Some (s, rc, pdu) =>
      if rc =? INF_SUCCESS then
        if rcvd_tag s pdu =? PSPSERIALPDURRNID_REQUEST_CONNECT then
          let s := set_cPdusSent 0 s in
          let '(s, rc) := pspStubPduSend s INF_SUCCESS 0 PSPSERIALPDURRNID_RESPONSE_CONNECT
                                          connect_resp in
          Some (if rc =? 0 then set_fConnected true s else s, INF_SUCCESS)
        else Some (s, INF_SUCCESS)
      else Some (s, INF_SUCCESS)
  end.

(** The beacon of one pass of the beacon loop of pspStubMainloop. *)
Definition pspStubBeaconSend (s : PSPSTUBSTATE) : PSPSTUBSTATE * Z :=
  let s := set_cBeaconsSent (wrap32 (cBeaconsSent s + 1)) s in
  pspStubPduSend s INF_SUCCESS 0 PSPSERIALPDURRNID_NOTIFICATION_BEACON
    (le_bytes 4 (cBeaconsSent s) ++ le_bytes 4 0).

(** One pass of the beacon loop. *)
Definition pspStubBeaconIter (fuel : nat) (s : PSPSTUBSTATE) : option (PSPSTUBSTATE * Z) :=
  let '(s, rc) := pspStubBeaconSend s in
  if rc =? 0 then pspStubCheckConnection fuel s 1000 else Some (s, rc).

(** [while (!pThis->fConnected && !rc) { ... }] with at most [n] passes. *)
Fixpoint pspStubBeaconLoop (n fuel : nat) (s : PSPSTUBSTATE) (rc : Z)
  : option (PSPSTUBSTATE * Z) :=
  if negb (fConnected s) && (rc =? 0) then
    match n with
    | O => None
    | S n' =>
        match pspStubBeaconIter fuel s with
        | None => None
        | Some (s, rc) => pspStubBeaconLoop n' fuel s rc
        end
    end
  else Some (s, rc).

(** One pass of the connected loop:
    [rc = pspStubPduRecv(..., INDEFINITE_WAIT); if (!rc) rc = pspStubPduProcess(...);] *)
Definition pspStubConnectedIter (fuel : nat) (s : PSPSTUBSTATE) : option (PSPSTUBSTATE * Z) :=
  match pspStubPduRecv fuel s PSP_SERIAL_STUB_INDEFINITE_WAIT with
  | None => None
  | Some (s, rc, _) => if rc =? 0 then Some (pspStubPduProcess s) else Some (s, rc)
  end.

(** Where the stub is after some passes: still inside pspStubMainloop, or
    returned from it with a status (main then spins forever). *)
Inductive Outcome :=
| Running (s : PSPSTUBSTATE)
| Exited (s : PSPSTUBSTATE) (rc : Z).

(** [for (;;) { ... }] of the connected phase, [n] passes. *)
Fixpoint pspStubConnectedLoop (n fuel : nat) (s : PSPSTUBSTATE) : Outcome :=
  match n with
  | O => Running s
  | S n' =>
      match pspStubConnectedIter fuel s with
      | None => Running s
      | Some (s, _) => pspStubConnectedLoop n' fuel s
      end
  end.

Definition pspStubMainloop (n fuel : nat) (s : PSPSTUBSTATE) : Outcome :=
  match pspStubBeaconLoop n fuel s INF_SUCCESS with
  | None => Running s
  | Some (s, rc) =>
      if (rc =? 0) && fConnected s then pspStubConnectedLoop n fuel s else Exited s rc
  end.

(** The state set up by main before the UART is mapped. *)
Definition pspStubInitState (w : World) : PSPSTUBSTATE :=
  pspStubPduRecvReset
    {| aX86MapSlots := repeat (mkX86Map NIL_X86PADDR 0 0) 15;
       aSmnMapSlots := repeat (mkSmnMap 0 0) 32;
       cCcds := 1;
       fConnected := false;
       cBeaconsSent := 0;
       cPdusSent := 0;
       cPduRecvNext := 1;
       enmPduRecvState := PSPSERIALPDURECVSTATE_INVALID;
       cbPduRecvLeft := 0;
       offPduRecv := 0;
       abPdu := repeat 0 (Z.to_nat _4K);
       hw := w |}.

(* ------------------------------------------------------------------ *)
(** ** Concrete inputs *)

(** A request PDU as the external tool frames it (start and end magic of
    the EXT to PSP direction, checksum over [u.ab] and the payload). *)
Definition ext_pdu (cnt tag : Z) (payload : list Z) : list Z :=
  let h := {| u32Magic := PSP_SERIAL_EXT_2_PSP_PDU_START_MAGIC;
              cbPdu := Z.of_nat (length payload); cPdus := cnt; enmRrnId := tag;
              idCcd := 0; rcReq := 0; tsMillies := 0 |} in
  hdr_bytes h ++ payload
  ++ footer_bytes (pspStubPduChkSum h payload) PSP_SERIAL_EXT_2_PSP_PDU_END_MAGIC.

(** A transfer request payload [{u64 addr, u32 len, pad}]. *)
Definition xfer_req (addr len : Z) : list Z := le_bytes 8 addr ++ le_bytes 4 len ++ le_bytes 4 0.

(** An environment where [input] arrives before the first poll, the
    clock reads [ms k] at its k-th reading, and every UART transfer
    returns [rc_rd] / [rc_wr]. *)
Definition test_world (ms : nat -> Z) (input : list Z) (rc_rd rc_wr : Z) : World :=
  {| w_ms := ms; w_nms := 0; w_arrive := fun k => if Nat.eqb k 0 then input else [];
     w_npoll := 0; w_rx := []; w_rd_rc := fun _ => rc_rd; w_nrd := 0;
     w_wr_rc := fun _ => rc_wr; w_nwr := 0; w_tx := []; w_regs := ∅;
     w_reg_log := []; w_mem := ∅ |}.

(** Connected stub, clock at k ms at its k-th reading, [input] pending. *)
Definition test_state (input : list Z) : PSPSTUBSTATE :=
  set_fConnected true (pspStubInitState (test_world (fun k => Z.of_nat k) input 0 0)).

(** Spec scenario 4: [PSP_MMIO_READ{addr=0x03010424, len=3}]. *)
Definition bad_mmio_read_state : PSPSTUBSTATE :=
  test_state (ext_pdu 1 PSPSERIALPDURRNID_REQUEST_PSP_MMIO_READ (xfer_req 50398244 3)).

(** [PSP_MMIO_READ{addr=0x03010424, len=4}] and the write counterpart. *)
Definition mmio_read_state : PSPSTUBSTATE :=
  test_state (ext_pdu 1 PSPSERIALPDURRNID_REQUEST_PSP_MMIO_READ (xfer_req 50398244 4)).
Definition mmio_write_state : PSPSTUBSTATE :=
  test_state (ext_pdu 1 PSPSERIALPDURRNID_REQUEST_PSP_MMIO_WRITE
                (xfer_req 50398244 4 ++ [1; 2; 3; 4])).

(** Beacon phase: a CONNECT request is pending and the stub's clock reads
    500 ms at entry of pspStubPduRecv, 500 + k ms afterwards. *)
Definition connect_at_500_state : PSPSTUBSTATE :=
  pspStubInitState
    (test_world (fun k => 500 + Z.of_nat k) (ext_pdu 1 PSPSERIALPDURRNID_REQUEST_CONNECT []) 0 0).

(** The header of the [i]-th chunk written to the UART. *)
Definition tx_hdr (s : PSPSTUBSTATE) (i : nat) : PSPSERIALPDUHDR :=
  hdr_decode (default [] (w_tx (hw s) !! i)).

(** The x86 address of the legacy UART that main maps at start-up. *)
Definition PhysX86UartBase : Z := 281466386973688.

(** Beacon phase, five PDUs already sent, CONNECT pending; the clock
    starts at 0. *)
Definition connect_state : PSPSTUBSTATE :=
  set_cPdusSent 5
    (pspStubInitState
       (test_world (fun k => Z.of_nat k) (ext_pdu 1 PSPSERIALPDURRNID_REQUEST_CONNECT []) 0 0)).

(** A stub whose third UART write fails, and one whose counter is at its
    largest value. *)
Definition third_write_fails_state : PSPSTUBSTATE :=
  set_hw {| w_ms := fun k => Z.of_nat k; w_nms := 0; w_arrive := fun _ => [];
            w_npoll := 0; w_rx := []; w_rd_rc := fun _ => 0; w_nrd := 0;
            w_wr_rc := fun k => if Nat.eqb k 2 then -5 else 0; w_nwr := 0;
            w_tx := []; w_regs := ∅; w_reg_log := []; w_mem := ∅ |}
    (test_state []).
Definition counter_full_state : PSPSTUBSTATE :=
  set_cPdusSent 4294967295 (test_state []).

(** Three responses with empty payload. *)
Definition three_empty_responses : list (Z * Z * Z * list Z) :=
  [(INF_SUCCESS, 0, PSPSERIALPDURRNID_RESPONSE_PSP_MEM_WRITE, []);
   (INF_SUCCESS, 0, PSPSERIALPDURRNID_RESPONSE_PSP_MEM_WRITE, []);
   (INF_SUCCESS, 0, PSPSERIALPDURRNID_RESPONSE_PSP_MEM_WRITE, [])].

(** A PSP_MEM_READ request as the external tool frames it, in the
    receive buffer. *)
Definition mem_read_req_hdr : PSPSERIALPDUHDR :=
  {| u32Magic := PSP_SERIAL_EXT_2_PSP_PDU_START_MAGIC; cbPdu := 16; cPdus := 1;
     enmRrnId := PSPSERIALPDURRNID_REQUEST_PSP_MEM_READ; idCcd := 0; rcReq := 0;
     tsMillies := 0 |}.
Definition mem_read_req_state : PSPSTUBSTATE :=
  set_abPdu (ext_pdu 1 PSPSERIALPDURRNID_REQUEST_PSP_MEM_READ (xfer_req 327680 4)
             ++ repeat 0 4048) (test_state []).

(** A freshly initialised stub: every x86 slot is a sentinel. *)
Definition x86_fresh_state : PSPSTUBSTATE :=
  pspStubInitState (test_world (fun k => Z.of_nat k) [] 0 0).

(** All 15 x86 slots live, slot k holding the 64 MiB window at k * 64 MiB. *)
Definition x86_full_state : PSPSTUBSTATE :=
  set_x86 (map (fun k => mkX86Map (Z.of_nat k * _64M) 4 1) (seq 0 15)) x86_fresh_state.

(** A stub whose UART refuses every write. *)
Definition uart_dead_state : PSPSTUBSTATE :=
  pspStubInitState (test_world (fun k => Z.of_nat k) [] 0 (-5)).

(** [s'] differs from [s] at most in the parser, the receive buffer,
    [cPduRecvNext] and the input side of the environment: no mapping,
    session field, register, memory byte or UART output changes. *)
Definition recv_frame (s s' : PSPSTUBSTATE) : Prop :=
  aX86MapSlots s' = aX86MapSlots s /\ aSmnMapSlots s' = aSmnMapSlots s
  /\ cCcds s' = cCcds s /\ fConnected s' = fConnected s
  /\ cBeaconsSent s' = cBeaconsSent s /\ cPdusSent s' = cPdusSent s
  /\ w_tx (hw s') = w_tx (hw s) /\ w_regs (hw s') = w_regs (hw s)
  /\ w_reg_log (hw s') = w_reg_log (hw s) /\ w_mem (hw s') = w_mem (hw s).

(** Spec scenario 5: a complete header with counter 7 while 1 is
    expected sits in the receive buffer. *)
Definition counter_gap_state : PSPSTUBSTATE :=
  set_recv PSPSERIALPDURECVSTATE_HDR 0 (Z.of_nat cbHdr)
    (set_abPdu (ext_pdu 7 PSPSERIALPDURRNID_REQUEST_PSP_MEM_READ (xfer_req 327680 4)
                ++ repeat 0 4000)
       (test_state [])).

(** Beacon phase, a PSP_MEM_READ request pending instead of CONNECT. *)
Definition beacon_mem_read_state : PSPSTUBSTATE :=
  pspStubInitState
    (test_world (fun k => Z.of_nat k)
       (ext_pdu 1 PSPSERIALPDURRNID_REQUEST_PSP_MEM_READ (xfer_req 327680 4)) 0 0).

(* ------------------------------------------------------------------ *)
(** ** The timer *)

(** Modelled from the spec: the tick manager TM of tm.h is outside main.c
    ("counts elapsed ticks into a millisecond accumulator"); its state is
    that accumulator, and TMTick adds one millisecond to it. *)
Definition TMTick (tm : Z) : Z := tm + 1.

(** PSPTIMER *)
Record PSPTIMER := mkTimer {
  Tm : Z;
  cCnts : Z;
  cSubMsTicks : Z
}.

(** [0x03010424]: the timer control register; the 32-bit counter of the
    100 MHz timer sits 32 bytes above it. *)
Definition PspTimerCtrl : Z := 50398244.
Definition PspTimerCnt : Z := PspTimerCtrl + 32.

(** pspStubTimerInit, with the outcome of TMInit (its status and the
    accumulator it set up) as input; besides the timer and the status, the
    32-bit stores made, in order. *)
Definition pspStubTimerInit (rcTm tm0 : Z) (t : PSPTIMER) : PSPTIMER * Z * list (Z * Z) :=
  if rcTm =? 0
  then (mkTimer tm0 0 0, rcTm, [(PspTimerCnt, 0); (PspTimerCtrl, 257)])
  else (mkTimer tm0 (cCnts t) (cSubMsTicks t), rcTm, []).

(** [while (cTicksPassed >= 100 * 1000) { TMTick(&pTimer->Tm); cTicksPassed -= 100 * 1000; }]
    with at most [fuel] passes ([None]: fuel exhausted). *)
Fixpoint pspStubTimerTickLoop (fuel : nat) (tm cTicksPassed : Z) : option (Z * Z) :=
  match fuel with
  | O => None
  | S fuel' =>
      if cTicksPassed >=? 100000
      then pspStubTimerTickLoop fuel' (TMTick tm) (cTicksPassed - 100000)
      else Some (tm, cTicksPassed)
  end.

(** A uint32_t tick count runs that loop at most 2^32 / 100000 times. *)
Definition TimerLoopFuel : nat := Z.to_nat (2 ^ 32 / 100000) + 1.

(** pspStubTimerHandle, [cCntsHw] being the value loaded from the counter
    register. *)
Definition pspStubTimerHandle (cCntsHw : Z) (t : PSPTIMER) : option PSPTIMER :=
  let cTicksPassed :=
    if cCntsHw >=? cCnts t then wrap32 (cCntsHw - cCnts t)
    else wrap32 (cCntsHw + (4294967295 - cCnts t) + 1) in
  match pspStubTimerTickLoop TimerLoopFuel (Tm t) cTicksPassed with
  | None => None
  | Some (tm, cTicksPassed) =>
      let cTicksPassed := wrap32 (cTicksPassed + cSubMsTicks t) in
      let '(tm, cTicksPassed) :=
        if cTicksPassed >=? 100000 then (TMTick tm, cTicksPassed - 100000)
        else (tm, cTicksPassed) in
      Some (mkTimer tm cCntsHw cTicksPassed)
  end.

(** Successive pspStubTimerHandle calls, one per counter value read. *)
Fixpoint pspStubTimerHandleSeq (cnts : list Z) (t : PSPTIMER) : option PSPTIMER :=
  match cnts with
  | [] => Some t
  | c :: cnts' =>
      match pspStubTimerHandle c t with
      | None => None
      | Some t => pspStubTimerHandleSeq cnts' t
      end
  end.

(** The number of 10 ns ticks between successive counter readings, the
    counter being a free-running 32-bit register. *)
Fixpoint timer_ticks_elapsed (prev : Z) (cnts : list Z) : Z :=
  match cnts with
  | [] => 0
  | c :: cnts' => wrap32 (c - prev) + timer_ticks_elapsed c cnts'
  end.

(** The counter value read last ([prev] when none was read). *)
Fixpoint timer_cnt_last (prev : Z) (cnts : list Z) : Z :=
  match cnts with
  | [] => prev
  | c :: cnts' => timer_cnt_last c cnts'
  end.

(* ------------------------------------------------------------------ *)
(** ** The SMN control registers, live windows and well-formed slots *)


(** The control register of SMN slot [idx]; slots [2k] and [2k+1] share
    it, the odd one in the upper 16 bits. *)
Definition smn_ctrl_reg (idx : nat) : Z := 52559872 + (Z.of_nat idx / 2) * 4.

(** The value pspStubSmnPhysMap stores there when it sets up slot [idx]
    for [base], [r] being the value loaded. *)
Definition smn_ctrl_set (idx : nat) (base r : Z) : Z :=
  if Z.odd (Z.of_nat idx) then wrap32 (Z.lor r (Z.shiftl (Z.shiftr base 20) 16))
  else Z.lor r (Z.shiftr base 20).

(** The value pspStubSmnUnmapByPtr stores there when slot [idx] loses its
    last reference: the half of the paired slot. *)
Definition smn_ctrl_keep (idx : nat) (r : Z) : Z :=
  if Z.odd (Z.of_nat idx) then Z.land r 65535 else Z.land r 4294901760.

(** [pv] points into the window of an SMN slot that holds a reference. *)
Definition smn_ptr_live (s : PSPSTUBSTATE) (pv : Z) : Prop :=
  exists idx m, aSmnMapSlots s !! idx = Some m /\ smn_cRefs m <> 0
  /\ 16777216 + Z.of_nat idx * _1M <= pv < 16777216 + (Z.of_nat idx + 1) * _1M.

(** [pv] points into the window of an x86 slot that holds a reference. *)
Definition x86_ptr_live (s : PSPSTUBSTATE) (pv : Z) : Prop :=
  exists idx m, aX86MapSlots s !! idx = Some m /\ x86_cRefs m <> 0
  /\ 67108864 + Z.of_nat idx * _64M <= pv < 67108864 + (Z.of_nat idx + 1) * _64M.

(** Slot tables as the allocators leave them: a free x86 slot is
    (NIL, 0, 0), a used one holds a reference; refcounts stay below
    2^32 - 1 so one more reference does not wrap. *)
Definition x86_slot_wf (m : PSPX86MAPPING) : Prop :=
  (PhysX86AddrBase m = NIL_X86PADDR /\ uMemType m = 0 /\ x86_cRefs m = 0)
  \/ (PhysX86AddrBase m <> NIL_X86PADDR /\ 0 < x86_cRefs m < 2 ^ 32 - 1).
Definition smn_slot_wf (m : PSPSMNMAPPING) : Prop :=
  (SmnAddrBase m = 0 /\ 0 <= smn_cRefs m < 2 ^ 32 - 1)
  \/ (SmnAddrBase m <> 0 /\ 0 < smn_cRefs m < 2 ^ 32 - 1).


(** The two slot tables. *)
Definition slots_of (s : PSPSTUBSTATE) : list PSPX86MAPPING * list PSPSMNMAPPING :=
  (aX86MapSlots s, aSmnMapSlots s).

(* ------------------------------------------------------------------ *)
(** ** Concrete inputs for the allocator and timer properties *)

(** All 32 SMN slots live, slot k holding one reference to the 1 MiB
    window at (k + 1) MiB. *)
Definition smn_full_state : PSPSTUBSTATE :=
  set_smn (map (fun k => mkSmnMap (Z.of_nat (S k) * _1M) 1) (seq 0 32)) x86_fresh_state.

(** [PSP_SMN_READ{addr=0x5a000, len=4}] in the receive buffer. *)
Definition smn_xfer_state : PSPSTUBSTATE :=
  set_abPdu (ext_pdu 1 PSPSERIALPDURRNID_REQUEST_PSP_SMN_READ (xfer_req 368640 4)
             ++ repeat 0 4048) (test_state []).

(** SMN slot 0 holding two references to base 0. *)
Definition smn_base0_state : PSPSTUBSTATE :=
  set_smn (<[0%nat := mkSmnMap 0 2]> (aSmnMapSlots smn_xfer_state)) smn_xfer_state.

(** [PSP_X86_MEM_READ{addr=0x100000000, len=4}] in the receive buffer,
    the legacy UART mapped as main does at start-up. *)
Definition x86_xfer_state : PSPSTUBSTATE :=
  fst (fst (pspStubX86PhysMap
              (set_abPdu (ext_pdu 1 PSPSERIALPDURRNID_REQUEST_PSP_X86_MEM_READ
                            (xfer_req 4294967296 4) ++ repeat 0 4048) (test_state []))
              PhysX86UartBase true)).

(* ------------------------------------------------------------------ *)
(** ** The x86 UART register callbacks *)



(* ------------------------------------------------------------------ *)
(** ** The receive window *)

Definition byte_ok (b : Z) : Prop := 0 <= b < 256.

(** How far [offPduRecv + cbPduRecvLeft] may reach in each parser state:
    the header (24 bytes), header and largest payload accepted by
    pspStubPduHdrValidate (24 + 4064), the whole buffer. *)
Definition recv_limit (e : PSPSERIALPDURECVSTATE) : Z :=
  match e with
  | PSPSERIALPDURECVSTATE_HDR => 24
  | PSPSERIALPDURECVSTATE_PAYLOAD => 4088
  | _ => 4096
  end.

(** The receive buffer keeps its 4 KiB of bytes, the UART delivers bytes,
    and the window [offPduRecv, offPduRecv + cbPduRecvLeft) the next read
    stores into lies inside the buffer. *)
Definition recv_inv (s : PSPSTUBSTATE) : Prop :=
  length (abPdu s) = Z.to_nat _4K
  /\ Forall byte_ok (abPdu s)
  /\ Forall byte_ok (w_rx (hw s))
  /\ (forall k, Forall byte_ok (w_arrive (hw s) k))
  /\ 0 <= offPduRecv s /\ 0 <= cbPduRecvLeft s
  /\ offPduRecv s + cbPduRecvLeft s <= recv_limit (enmPduRecvState s).

(* ================================================================== *)
(** * Properties *)

(** A transfer request of a width other than 1, 2, 4 or 8 makes the
    local MMIO handler return before anything is sent. *)
Lemma pspStubPduProcessPspMmioXfer_bad_width (s : PSPSTUBSTATE) (cb : Z) (fWrite : bool) :
  mmio_width_ok (req_cbXfer (pdu_payload s)) = false ->
  pspStubPduProcessPspMmioXfer s cb fWrite = (s, ERR_INVALID_PARAMETER).
Proof.
  intros Hw. unfold pspStubPduProcessPspMmioXfer. rewrite Hw, orb_true_r. reflexivity.
Qed.

(** C1 (code_bug): spec scenario 4.  The connected stub receives the
    request [PSP_MMIO_READ{addr=0x03010424, len=3}]; the pass of the
    dispatch loop ends with status INVALID_PARAMETER and nothing at all
    has been written to the UART: no response PDU is sent for this
    accepted request. *)
Theorem C1_bad_mmio_width_no_response :
  match pspStubConnectedIter 10 bad_mmio_read_state with
  | Some (s, rc) =>
      rc = ERR_INVALID_PARAMETER /\ w_tx (hw s) = [] /\ cPduRecvNext s = 2
  | None => False
  end.
Proof. vm_compute. auto. Qed.

(** C2 (code_bug): a well-formed [PSP_MMIO_READ{len=4}] is answered with
    the PSP_MEM read response tag, and [PSP_MMIO_WRITE{len=4}] with the
    PSP_MEM write response tag, not the PSP_MMIO response tags (the unit
    id of the responses is 0). *)
Theorem C2_mmio_response_tags :
  match pspStubConnectedIter 10 mmio_read_state with
  | Some (s, rc) =>
      rc = INF_SUCCESS
      /\ enmRrnId (tx_hdr s 0) = PSPSERIALPDURRNID_RESPONSE_PSP_MEM_READ
      /\ enmRrnId (tx_hdr s 0) <> PSPSERIALPDURRNID_RESPONSE_PSP_MMIO_READ
      /\ idCcd (tx_hdr s 0) = 0
  | None => False
  end
  /\
  match pspStubConnectedIter 10 mmio_write_state with
  | Some (s, rc) =>
      rc = INF_SUCCESS
      /\ enmRrnId (tx_hdr s 0) = PSPSERIALPDURRNID_RESPONSE_PSP_MEM_WRITE
      /\ enmRrnId (tx_hdr s 0) <> PSPSERIALPDURRNID_RESPONSE_PSP_MMIO_WRITE
      /\ idCcd (tx_hdr s 0) = 0
  | None => False
  end.
Proof. vm_compute. repeat split; discriminate. Qed.

(** C3 (code_bug): with a bound of 1000 ms, entered when the clock
    reads 500 ms, and a complete valid CONNECT request pending,
    pspStubPduRecv hands the PDU back (cPduRecvNext advanced to 2) but
    returns the try-again status, because the final test adds the start
    time to the current time; pspStubCheckConnection then drops the
    CONNECT request: no response and no connection. *)
Theorem C3_try_again_with_complete_pdu :
  match pspStubPduRecv 10 connect_at_500_state 1000 with
  | Some (s, rc, pdu) => pdu = true /\ rc = INF_TRY_AGAIN /\ cPduRecvNext s = 2
  | None => False
  end
  /\
  match pspStubCheckConnection 10 connect_at_500_state 1000 with
  | Some (s, rc) => rc = INF_SUCCESS /\ fConnected s = false /\ w_tx (hw s) = []
  | None => False
  end.
Proof. vm_compute. auto. Qed.

(** The [for (;;)] of the connected phase has no exit. *)
Lemma pspStubConnectedLoop_running (n fuel : nat) (s : PSPSTUBSTATE) :
  exists s', pspStubConnectedLoop n fuel s = Running s'.
Proof.
  revert s. induction n as [|n IH]; intros s; simpl; [eauto|].
  destruct (pspStubConnectedIter fuel s) as [[s1 rc]|]; eauto.
Qed.

(** C4 (corrected): in the connected phase the dispatch loop never ends:
    whatever the status of a pass (receive or processing error included),
    the next pass follows; pspStubMainloop returns (and main spins) only
    from the beacon phase, with the beacon loop's final state and status,
    when that status is an error or no peer connected. *)
Theorem C4_connected_loop_never_exits (n fuel : nat) (s : PSPSTUBSTATE) :
  (exists s', pspStubConnectedLoop n fuel s = Running s')
  /\ (forall s' rc, pspStubMainloop n fuel s = Exited s' rc ->
        pspStubBeaconLoop n fuel s INF_SUCCESS = Some (s', rc)
        /\ (rc <> 0 \/ fConnected s' = false)).
Proof.
  split; [apply pspStubConnectedLoop_running|].
  intros s' rc. unfold pspStubMainloop.
  destruct (pspStubBeaconLoop n fuel s INF_SUCCESS) as [[s1 rc1]|] eqn:E.
  - destruct ((rc1 =? 0) && fConnected s1) eqn:Hc.
    + destruct (pspStubConnectedLoop_running n fuel s1) as [s2 ->]. discriminate.
    + intros [= <- <-]. split; [reflexivity|].
      apply andb_false_iff in Hc as [Hc|Hc]; [left; apply Z.eqb_neq; exact Hc|right; exact Hc].
  - discriminate.
Qed.

Lemma C4_connected_loop_never_exits_witness :
  pspStubMainloop 3 10 uart_dead_state = Exited (fst (pspStubBeaconSend uart_dead_state)) (-5)
  /\ pspStubBeaconLoop 3 10 uart_dead_state INF_SUCCESS
     = Some (fst (pspStubBeaconSend uart_dead_state), -5)
  /\ (-5 <> 0 \/ fConnected (fst (pspStubBeaconSend uart_dead_state)) = false).
Proof.
  assert (H : pspStubMainloop 3 10 uart_dead_state
              = Exited (fst (pspStubBeaconSend uart_dead_state)) (-5))
    by (vm_compute; reflexivity).
  split; [exact H|].
  exact (proj2 (C4_connected_loop_never_exits 3 10 uart_dead_state) _ _ H).
Defined.

(** C4 counterexample: the pass on spec scenario 4 ends with the error
    INVALID_PARAMETER, and the connected loop is still running after any
    number of further passes. *)
Lemma C4_error_pass_keeps_looping :
  (match pspStubConnectedIter 10 bad_mmio_read_state with
   | Some (_, rc) => rc = ERR_INVALID_PARAMETER
   | None => False
   end)
  /\ forall n, ~ exists s' rc, pspStubConnectedLoop n 10 bad_mmio_read_state = Exited s' rc.
Proof.
  split; [vm_compute; reflexivity|].
  intros n [s' [rc Hx]]. destruct (pspStubConnectedLoop_running n 10 bad_mmio_read_state) as [s2 H2].
  congruence.
Qed.

(* ------------------------------------------------------------------ *)
(** ** What receiving leaves alone *)

Lemma recv_frame_refl (s : PSPSTUBSTATE) : recv_frame s s.
Proof. repeat split. Qed.

Lemma recv_frame_trans (s1 s2 s3 : PSPSTUBSTATE) :
  recv_frame s1 s2 -> recv_frame s2 s3 -> recv_frame s1 s3.
Proof.
  unfold recv_frame. intros (?&?&?&?&?&?&?&?&?&?) (?&?&?&?&?&?&?&?&?&?).
  repeat split; congruence.
Qed.

Ltac frame_by_computation := unfold recv_frame; cbn; repeat split.

Lemma recv_frame_millies (s : PSPSTUBSTATE) : recv_frame s (fst (pspStubGetMillies s)).
Proof. frame_by_computation. Qed.

Lemma recv_frame_avail (s : PSPSTUBSTATE) : recv_frame s (fst (PSPUartGetDataAvail s)).
Proof. frame_by_computation. Qed.

Lemma recv_frame_read (s : PSPSTUBSTATE) (n : Z) :
  recv_frame s (fst (fst (PSPUartRead s n))).
Proof. unfold PSPUartRead. destruct (_ =? 0); frame_by_computation. Qed.

Lemma recv_frame_reset (s : PSPSTUBSTATE) : recv_frame s (pspStubPduRecvReset s).
Proof. frame_by_computation. Qed.

Lemma recv_frame_advance (s : PSPSTUBSTATE) :
  recv_frame s (fst (fst (pspStubPduRecvAdvance s))).
Proof.
  unfold pspStubPduRecvAdvance.
  destruct (enmPduRecvState s);
    repeat (match goal with |- context [if ?c then _ else _] => destruct c end);
    frame_by_computation.
Qed.

Lemma recv_frame_body (s : PSPSTUBSTATE) (rc : Z) (pdu : bool) :
  recv_frame s (fst (fst (fst (pspStubPduRecvBody s rc pdu)))).
Proof.
  unfold pspStubPduRecvBody.
  pose proof (recv_frame_avail s) as H1.
  destruct (PSPUartGetDataAvail s) as [s1 a]. simpl in H1.
  destruct (a =? 0); [exact H1|].
  pose proof (recv_frame_read s1 (Z.min a (cbPduRecvLeft s1))) as H2.
  destruct (PSPUartRead s1 _) as [[s2 rc2] bs]. simpl in H2.
  destruct (rc2 =? 0); [|eapply recv_frame_trans; eauto].
  set (s3 := set_recv _ _ _ (set_abPdu _ s2)).
  assert (H3 : recv_frame s2 s3) by frame_by_computation.
  destruct (cbPduRecvLeft s3 =? 0).
  - pose proof (recv_frame_advance s3) as H4.
    destruct (pspStubPduRecvAdvance s3) as [[s4 rc4] p4]. simpl in H4 |- *.
    eauto using recv_frame_trans.
  - simpl. eauto using recv_frame_trans.
Qed.

Lemma recv_frame_cond (s : PSPSTUBSTATE) (rc ts c : Z) :
  recv_frame s (fst (pspStubPduRecvCond s rc ts c)).
Proof.
  unfold pspStubPduRecvCond. destruct (rc =? 0).
  - pose proof (recv_frame_millies s) as H.
    destruct (pspStubGetMillies s) as [s1 now]. exact H.
  - apply recv_frame_refl.
Qed.

Lemma recv_frame_loop (fuel : nat) (s : PSPSTUBSTATE) (rc : Z) (pdu : bool) (ts c : Z)
  (s' : PSPSTUBSTATE) (rc' : Z) (pdu' : bool) :
  pspStubPduRecvLoop fuel s rc pdu ts c = Some (s', rc', pdu') -> recv_frame s s'.
Proof.
  revert s rc pdu. induction fuel as [|fuel IH]; intros s rc pdu H; [discriminate|].
  simpl in H.
  pose proof (recv_frame_body s rc pdu) as H1.
  destruct (pspStubPduRecvBody s rc pdu) as [[[s1 rc1] p1] brk]. simpl in H1.
  destruct brk; [injection H as <- _ _; exact H1|].
  pose proof (recv_frame_cond s1 rc1 ts c) as H2.
  destruct (pspStubPduRecvCond s1 rc1 ts c) as [s2 cont]. simpl in H2.
  destruct cont.
  - eapply recv_frame_trans; [exact H1|]. eapply recv_frame_trans; [exact H2|]. eauto.
  - injection H as <- _ _. eauto using recv_frame_trans.
Qed.

Lemma recv_frame_recv (fuel : nat) (s : PSPSTUBSTATE) (c : Z)
  (s' : PSPSTUBSTATE) (rc' : Z) (pdu' : bool) :
  pspStubPduRecv fuel s c = Some (s', rc', pdu') -> recv_frame s s'.
Proof.
  unfold pspStubPduRecv. intros H.
  pose proof (recv_frame_millies s) as H1.
  destruct (pspStubGetMillies s) as [s1 ts]. simpl in H1.
  destruct (pspStubPduRecvLoop fuel s1 INF_SUCCESS false ts c) as [[[s2 rc2] p2]|] eqn:E;
    [|discriminate].
  pose proof (recv_frame_loop _ _ _ _ _ _ _ _ _ E) as H2.
  pose proof (recv_frame_millies s2) as H3.
  destruct (pspStubGetMillies s2) as [s3 now]. simpl in H3.
  injection H as <- _ _. eauto using recv_frame_trans.
Qed.

(* ------------------------------------------------------------------ *)
(** ** The expected receive counter *)

Lemma advance_recvnext (s : PSPSTUBSTATE) :
  let '(s', rc, p) := pspStubPduRecvAdvance s in
  cPduRecvNext s' = (if p then wrap32 (cPduRecvNext s + 1) else cPduRecvNext s)
  /\ (p = true <-> enmPduRecvState s = PSPSERIALPDURECVSTATE_FOOTER
                  /\ pspStubPduValidate s = 0)
  /\ (p = true -> rc = 0).
Proof.
  unfold pspStubPduRecvAdvance.
  destruct (enmPduRecvState s) eqn:Es.
  - repeat split; intros; try discriminate; destruct_and?; congruence.
  - destruct (_ =? 0); [destruct (negb _)|]; cbn;
      repeat split; intros; try discriminate; destruct_and?; congruence.
  - cbn. repeat split; intros; try discriminate; destruct_and?; congruence.
  - destruct (pspStubPduValidate s =? 0) eqn:Ev; cbn.
    + apply Z.eqb_eq in Ev. repeat split; auto.
    + apply Z.eqb_neq in Ev. repeat split; intros; try discriminate; destruct_and?; congruence.
Qed.

Lemma body_recvnext (s : PSPSTUBSTATE) (rc : Z) :
  let '(s1, rc1, p1, brk) := pspStubPduRecvBody s rc false in
  cPduRecvNext s1 = (if p1 then wrap32 (cPduRecvNext s + 1) else cPduRecvNext s)
  /\ (p1 = true -> brk = true).
Proof.
  unfold pspStubPduRecvBody.
  destruct (PSPUartGetDataAvail s) as [s1 a] eqn:E1.
  assert (Hn1 : cPduRecvNext s1 = cPduRecvNext s)
    by (unfold PSPUartGetDataAvail in E1; injection E1 as <- _; reflexivity).
  destruct (a =? 0); [split; [exact Hn1|discriminate]|].
  destruct (PSPUartRead s1 _) as [[s2 rc2] bs] eqn:E2.
  assert (Hn2 : cPduRecvNext s2 = cPduRecvNext s).
  { unfold PSPUartRead in E2. destruct (_ =? 0); injection E2 as <- _ _; exact Hn1. }
  destruct (rc2 =? 0); [|split; [exact Hn2|discriminate]].
  set (s3 := set_recv _ _ _ (set_abPdu _ s2)).
  assert (Hn3 : cPduRecvNext s3 = cPduRecvNext s) by exact Hn2.
  destruct (cbPduRecvLeft s3 =? 0); [|split; [exact Hn3|discriminate]].
  pose proof (advance_recvnext s3) as HA.
  destruct (pspStubPduRecvAdvance s3) as [[s4 rc4] p4].
  destruct HA as (HA1 & _ & HA3). rewrite Hn3 in HA1.
  split; [exact HA1|]. intros ->. rewrite (HA3 eq_refl). reflexivity.
Qed.

Lemma cond_recvnext (s : PSPSTUBSTATE) (rc ts c : Z) :
  cPduRecvNext (fst (pspStubPduRecvCond s rc ts c)) = cPduRecvNext s.
Proof. unfold pspStubPduRecvCond. destruct (rc =? 0); reflexivity. Qed.

Lemma loop_recvnext (fuel : nat) (s : PSPSTUBSTATE) (rc ts c : Z)
  (s' : PSPSTUBSTATE) (rc' : Z) (p' : bool) :
  pspStubPduRecvLoop fuel s rc false ts c = Some (s', rc', p') ->
  cPduRecvNext s' = (if p' then wrap32 (cPduRecvNext s + 1) else cPduRecvNext s).
Proof.
  revert s rc. induction fuel as [|fuel IH]; intros s rc H; [discriminate|].
  simpl in H. pose proof (body_recvnext s rc) as HB.
  destruct (pspStubPduRecvBody s rc false) as [[[s1 rc1] p1] brk].
  destruct HB as [HB1 HB2].
  destruct brk; [injection H as <- _ <-; exact HB1|].
  destruct p1; [discriminate (HB2 eq_refl)|].
  pose proof (cond_recvnext s1 rc1 ts c) as HC.
  destruct (pspStubPduRecvCond s1 rc1 ts c) as [s2 cont]. simpl in HC.
  destruct cont.
  - rewrite (IH _ _ H), HC, HB1. reflexivity.
  - injection H as <- _ <-. rewrite HC. exact HB1.
Qed.

Lemma recv_recvnext (fuel : nat) (s : PSPSTUBSTATE) (c : Z)
  (s' : PSPSTUBSTATE) (rc' : Z) (p' : bool) :
  pspStubPduRecv fuel s c = Some (s', rc', p') ->
  cPduRecvNext s' = (if p' then wrap32 (cPduRecvNext s + 1) else cPduRecvNext s).
Proof.
  unfold pspStubPduRecv. intros H.
  destruct (pspStubGetMillies s) as [s1 ts] eqn:E1.
  assert (Hn1 : cPduRecvNext s1 = cPduRecvNext s)
    by (unfold pspStubGetMillies in E1; injection E1 as <- _; reflexivity).
  destruct (pspStubPduRecvLoop fuel s1 INF_SUCCESS false ts c) as [[[s2 rc2] p2]|] eqn:E;
    [|discriminate].
  pose proof (loop_recvnext _ _ _ _ _ _ _ _ E) as H2.
  destruct (pspStubGetMillies s2) as [s3 now] eqn:E3.
  assert (Hn3 : cPduRecvNext s3 = cPduRecvNext s2)
    by (unfold pspStubGetMillies in E3; injection E3 as <- _; reflexivity).
  injection H as <- _ <-. rewrite Hn3, H2, Hn1. reflexivity.
Qed.

Lemma hdr_validate_iff (s : PSPSTUBSTATE) (h : PSPSERIALPDUHDR) :
  pspStubPduHdrValidate s h <> 0 <->
    u32Magic h <> PSP_SERIAL_EXT_2_PSP_PDU_START_MAGIC
    \/ cbPdu h > _4K - Z.of_nat cbHdr - Z.of_nat cbFooter
    \/ enmRrnId h < PSPSERIALPDURRNID_REQUEST_FIRST
    \/ enmRrnId h >= PSPSERIALPDURRNID_REQUEST_INVALID_FIRST
    \/ cPdus h <> cPduRecvNext s
    \/ idCcd h >= cCcds s.
Proof.
  unfold pspStubPduHdrValidate. rewrite Z.gtb_ltb, !Z.geb_leb.
  repeat match goal with
         | |- context [?x =? ?y] => destruct (Z.eqb_spec x y)
         | |- context [?x <? ?y] => destruct (Z.ltb_spec0 x y)
         | |- context [?x <=? ?y] => destruct (Z.leb_spec0 x y)
         end; simpl; lia.
Qed.

(** C6: header validation rejects a completed header exactly when the
    start magic is not the EXT to PSP one, the payload length exceeds
    4 KiB minus header and footer, the tag is outside the request range,
    the counter differs from cPduRecvNext, or the unit id is not below
    cCcds.  A rejected header resets the parser to the header state
    (status success, no PDU handed back) and leaves cPduRecvNext alone;
    cPduRecvNext moves (by one) only when a PDU is handed back, which
    happens exactly in the footer state when the footer validates; and
    receiving never writes anything to the UART. *)
Theorem C6_header_validation (s : PSPSTUBSTATE) (h : PSPSERIALPDUHDR) :
  (pspStubPduHdrValidate s h <> 0 <->
     u32Magic h <> PSP_SERIAL_EXT_2_PSP_PDU_START_MAGIC
     \/ cbPdu h > _4K - Z.of_nat cbHdr - Z.of_nat cbFooter
     \/ enmRrnId h < PSPSERIALPDURRNID_REQUEST_FIRST
     \/ enmRrnId h >= PSPSERIALPDURRNID_REQUEST_INVALID_FIRST
     \/ cPdus h <> cPduRecvNext s
     \/ idCcd h >= cCcds s)
  /\ (enmPduRecvState s = PSPSERIALPDURECVSTATE_HDR ->
      pspStubPduHdrValidate s (hdr_decode (abPdu s)) <> 0 ->
      pspStubPduRecvAdvance s = (pspStubPduRecvReset s, INF_SUCCESS, false)
      /\ enmPduRecvState (pspStubPduRecvReset s) = PSPSERIALPDURECVSTATE_HDR
      /\ cbPduRecvLeft (pspStubPduRecvReset s) = Z.of_nat cbHdr
      /\ offPduRecv (pspStubPduRecvReset s) = 0
      /\ cPduRecvNext (pspStubPduRecvReset s) = cPduRecvNext s
      /\ w_tx (hw (pspStubPduRecvReset s)) = w_tx (hw s))
  /\ (let '(s', rc, p) := pspStubPduRecvAdvance s in
      cPduRecvNext s' = (if p then wrap32 (cPduRecvNext s + 1) else cPduRecvNext s)
      /\ (p = true <-> enmPduRecvState s = PSPSERIALPDURECVSTATE_FOOTER
                      /\ pspStubPduValidate s = 0)
      /\ w_tx (hw s') = w_tx (hw s))
  /\ (forall fuel c s' rc p, pspStubPduRecv fuel s c = Some (s', rc, p) ->
      w_tx (hw s') = w_tx (hw s)
      /\ cPduRecvNext s' = (if p then wrap32 (cPduRecvNext s + 1) else cPduRecvNext s)).
Proof.
  split; [apply hdr_validate_iff|].
  split.
  { intros Hs Hv. unfold pspStubPduRecvAdvance. rewrite Hs.
    destruct (Z.eqb_spec (pspStubPduHdrValidate s (hdr_decode (abPdu s))) 0); [contradiction|].
    repeat split. }
  split.
  { pose proof (advance_recvnext s) as HA. pose proof (recv_frame_advance s) as HF.
    destruct (pspStubPduRecvAdvance s) as [[s' rc] p].
    destruct HA as (HA1 & HA2 & _). destruct HF as (_&_&_&_&_&_&HF&_).
    repeat split; auto; apply HA2; auto. }
  intros fuel c s' rc p H. split.
  - apply (recv_frame_recv _ _ _ _ _ _ H).
  - exact (recv_recvnext _ _ _ _ _ _ H).
Qed.

Lemma C6_header_validation_witness :
  pspStubPduRecvAdvance counter_gap_state
    = (pspStubPduRecvReset counter_gap_state, INF_SUCCESS, false)
  /\ cPduRecvNext (pspStubPduRecvReset counter_gap_state) = 1.
Proof.
  assert (Hs : enmPduRecvState counter_gap_state = PSPSERIALPDURECVSTATE_HDR)
    by reflexivity.
  assert (Hv : pspStubPduHdrValidate counter_gap_state (hdr_decode (abPdu counter_gap_state)) <> 0)
    by (vm_compute; discriminate).
  destruct (proj1 (proj2 (C6_header_validation counter_gap_state
                            (hdr_decode (abPdu counter_gap_state)))) Hs Hv)
    as (H1 & _ & _ & _ & H5 & _).
  split; [exact H1|]. rewrite H5. reflexivity.
Defined.

(** C10: in the beacon phase pspStubCheckConnection always returns
    success; a validated PDU whose tag is not CONNECT is consumed (the
    parser has advanced cPduRecvNext) with nothing written to the UART and
    fConnected unchanged; and a pass of the beacon loop ends with an error
    only when sending the beacon itself failed, so neither receive errors
    nor a failed CONNECT response end the beacon loop. *)
Theorem C10_beacon_phase (fuel : nat) (s : PSPSTUBSTATE) (cMillies : Z) :
  (forall s' rc, pspStubCheckConnection fuel s cMillies = Some (s', rc) -> rc = INF_SUCCESS)
  /\ (forall s1 rc1, pspStubPduRecv fuel s cMillies = Some (s1, rc1, true) ->
        rcvd_tag s1 true <> PSPSERIALPDURRNID_REQUEST_CONNECT ->
        pspStubCheckConnection fuel s cMillies = Some (s1, INF_SUCCESS)
        /\ w_tx (hw s1) = w_tx (hw s) /\ fConnected s1 = fConnected s
        /\ cPduRecvNext s1 = wrap32 (cPduRecvNext s + 1))
  /\ (forall s' rc, pspStubBeaconIter fuel s = Some (s', rc) -> rc <> 0 ->
        snd (pspStubBeaconSend s) = rc).
Proof.
  split.
  { intros s' rc. unfold pspStubCheckConnection.
    destruct (pspStubPduRecv fuel s cMillies) as [[[s1 rc1] p1]|]; [|discriminate].
    destruct (rc1 =? INF_SUCCESS); [|congruence].
    destruct (rcvd_tag s1 p1 =? _); [|congruence].
    destruct (pspStubPduSend _ _ _ _ _) as [s2 rc2]. congruence. }
  split.
  { intros s1 rc1 H Ht. unfold pspStubCheckConnection. rewrite H.
    destruct (recv_frame_recv _ _ _ _ _ _ H) as (_&_&_&Hc&_&_&Htx&_).
    pose proof (recv_recvnext _ _ _ _ _ _ H) as Hn.
    destruct (rc1 =? INF_SUCCESS).
    - destruct (Z.eqb_spec (rcvd_tag s1 true) PSPSERIALPDURRNID_REQUEST_CONNECT);
        [contradiction|]. auto.
    - auto. }
  intros s' rc. unfold pspStubBeaconIter.
  destruct (pspStubBeaconSend s) as [s1 rc1]. simpl.
  destruct (Z.eqb_spec rc1 0) as [->|Hne].
  - unfold pspStubCheckConnection.
    destruct (pspStubPduRecv fuel s1 1000) as [[[s2 rc2] p2]|]; [|discriminate].
    destruct (rc2 =? INF_SUCCESS);
      [destruct (rcvd_tag s2 p2 =? _); [destruct (pspStubPduSend _ _ _ _ _)|]|];
      intros [= _ <-] Hrc; contradiction.
  - intros [= _ <-] _. reflexivity.
Qed.

Lemma C10_beacon_phase_witness :
  (exists s1, pspStubCheckConnection 10 beacon_mem_read_state 1000 = Some (s1, INF_SUCCESS)
              /\ fConnected s1 = false /\ w_tx (hw s1) = [] /\ cPduRecvNext s1 = 2)
  /\ snd (pspStubBeaconSend uart_dead_state) = -5.
Proof.
  split.
  - destruct (pspStubPduRecv 10 beacon_mem_read_state 1000) as [[[s1 rc1] p1]|] eqn:E;
      [|vm_compute in E; discriminate].
    assert (Hp : p1 = true) by (vm_compute in E; congruence). subst p1.
    assert (Ht : rcvd_tag s1 true <> PSPSERIALPDURRNID_REQUEST_CONNECT)
      by (vm_compute in E; injection E as <- _; vm_compute; discriminate).
    destruct (proj1 (proj2 (C10_beacon_phase 10 beacon_mem_read_state 1000)) s1 rc1 E Ht)
      as (H1 & H2 & H3 & H4).
    exists s1. rewrite H2, H3, H4. split; [exact H1|]. vm_compute. repeat split.
  - apply (proj2 (proj2 (C10_beacon_phase 10 uart_dead_state 1000))
             (fst (pspStubBeaconSend uart_dead_state)) (-5)).
    + vm_compute. reflexivity.
    + discriminate.
Defined.

(* ------------------------------------------------------------------ *)
(** ** The x86 window allocator *)

Lemma reg_stores_frame (l : list (Z * Z)) (s : PSPSTUBSTATE) :
  w_reg_log (hw (reg_stores l s)) = w_reg_log (hw s) ++ l
  /\ aX86MapSlots (reg_stores l s) = aX86MapSlots s.
Proof.
  unfold reg_stores. revert s. induction l as [|[a v] l IH]; intros s; simpl.
  - rewrite app_nil_r. split; reflexivity.
  - destruct (IH (reg_store a v s)) as [H1 H2]. rewrite H1, H2. cbn.
    rewrite <- app_assoc. split; reflexivity.
Qed.

Lemma x86_find_slot_lookup (base mt : Z) (i : nat) (l : list PSPX86MAPPING)
    (k : nat) (m : PSPX86MAPPING) :
  x86_find_slot base mt i l = Some (k, m) ->
  (i <= k)%nat /\ l !! (k - i)%nat = Some m /\ x86_slot_candidate base mt m = true.
Proof.
  revert i. induction l as [|m' l IH]; intros i; simpl; [discriminate|].
  destruct (x86_slot_candidate base mt m') eqn:Hc.
  - intros [= <- <-]. rewrite Nat.sub_diag. auto.
  - intros H. destruct (IH _ H) as (H1 & H2 & H3). split; [lia|].
    replace (k - i)%nat with (S (k - S i)) by lia. simpl. auto.
Qed.

Lemma x86_find_slot_insert (base mt : Z) (i : nat) (l : list PSPX86MAPPING)
    (k : nat) (m m' : PSPX86MAPPING) :
  x86_find_slot base mt i l = Some (k, m) ->
  x86_slot_candidate base mt m' = true ->
  x86_find_slot base mt i (<[(k - i)%nat := m']> l) = Some (k, m').
Proof.
  revert i. induction l as [|m0 l IH]; intros i; simpl; [discriminate|].
  destruct (x86_slot_candidate base mt m0) eqn:Hc.
  - intros [= <- <-] Hm'. rewrite Nat.sub_diag. simpl. rewrite Hm'. reflexivity.
  - intros H Hm'. pose proof (x86_find_slot_lookup _ _ _ _ _ _ H) as [Hle _].
    replace (k - i)%nat with (S (k - S i)) by lia. simpl. rewrite Hc.
    replace (k - S i)%nat with (k - S i)%nat by reflexivity. apply IH; assumption.
Qed.

Lemma x86_find_slot_none (base mt : Z) (i : nat) (l : list PSPX86MAPPING) :
  Forall (fun m => x86_slot_candidate base mt m = false) l ->
  x86_find_slot base mt i l = None.
Proof.
  revert i. induction l as [|m l IH]; intros i Hl; simpl; [reflexivity|].
  inversion Hl as [|? ? Hm Hl']; subst. rewrite Hm. apply IH. exact Hl'.
Qed.

Lemma land_lnot_64M (a : Z) : Z.land a (Z.lnot (_64M - 1)) = a / _64M * _64M.
Proof.
  unfold _64M. replace (2 ^ 26 - 1) with (Z.ones 26) by reflexivity.
  rewrite <- Z.ldiff_land, Z.ldiff_ones_r by discriminate.
  rewrite Z.shiftl_mul_pow2, Z.shiftr_div_pow2 by discriminate. reflexivity.
Qed.

Lemma x86_base_not_nil (a : Z) : Z.land a (Z.lnot (_64M - 1)) <> NIL_X86PADDR.
Proof.
  rewrite land_lnot_64M. replace _64M with 67108864 by reflexivity.
  intros H. apply (f_equal (fun x => x mod 67108864)) in H.
  rewrite Z_mod_mult in H. vm_compute in H. discriminate.
Qed.

(** The local pointer handed out for slot [idx] at address [a]. *)
Lemma x86_ptr_slot (idx : nat) (a : Z) : (idx < 15)%nat ->
  wrap32 (Z.land (wrap32 (67108864 + Z.of_nat idx * _64M
                          + wrap32 (a - Z.land a (Z.lnot (_64M - 1)))))
                 (Z.lnot (_64M - 1)) - 67108864)
  = Z.of_nat idx * _64M.
Proof.
  intros Hidx. rewrite !land_lnot_64M.
  replace _64M with 67108864 by reflexivity. unfold wrap32.
  replace (2 ^ 32) with 4294967296 by reflexivity.
  replace (a - a / 67108864 * 67108864) with (a mod 67108864)
    by (rewrite Z.mod_eq by discriminate; ring).
  set (r := a mod 67108864).
  assert (Hr : 0 <= r < 67108864) by (apply Z.mod_pos_bound; reflexivity).
  rewrite (Z.mod_small r) by lia.
  rewrite (Z.mod_small (67108864 + Z.of_nat idx * 67108864 + r)) by lia.
  replace ((67108864 + Z.of_nat idx * 67108864 + r) / 67108864) with (1 + Z.of_nat idx)
    by (apply Z.div_unique with r; lia).
  rewrite Z.mod_small by lia. lia.
Qed.

Lemma x86_unmap_at (s : PSPSTUBSTATE) (idx : nat) (a : Z) (m : PSPX86MAPPING) :
  length (aX86MapSlots s) = 15%nat ->
  aX86MapSlots s !! idx = Some m -> x86_cRefs m <> 0 ->
  pspStubX86PhysUnmapByPtr s
    (wrap32 (67108864 + Z.of_nat idx * _64M + wrap32 (a - Z.land a (Z.lnot (_64M - 1)))))
  = if x86_cRefs m - 1 =? 0
    then (x86_slot_clear idx
            (set_x86 (<[idx := mkX86Map NIL_X86PADDR 0 0]> (aX86MapSlots s)) s),
          INF_SUCCESS)
    else (set_x86 (<[idx := mkX86Map (PhysX86AddrBase m) (uMemType m) (x86_cRefs m - 1)]>
                     (aX86MapSlots s)) s, INF_SUCCESS).
Proof.
  intros Hlen Hm Hr.
  assert (Hi : (idx < 15)%nat) by (rewrite <- Hlen; eapply lookup_lt_Some; eauto).
  unfold pspStubX86PhysUnmapByPtr. rewrite x86_ptr_slot by exact Hi.
  rewrite Z.div_mul, Z_mod_mult by (unfold _64M; lia). rewrite Nat2Z.id, Hlen.
  replace ((Z.of_nat idx <? Z.of_nat 15) && (0 =? 0)) with true
    by (symmetry; apply andb_true_iff; split; [apply Z.ltb_lt; lia | reflexivity]).
  rewrite Hm. rewrite (proj2 (Z.eqb_neq _ _) Hr). reflexivity.
Qed.

Lemma x86_map_alloc_eq (s : PSPSTUBSTATE) (a : Z) (fMmio : bool) (idx : nat) (m : PSPX86MAPPING) :
  x86_find_slot (Z.land a (Z.lnot (_64M - 1))) (if fMmio then 6 else 4) 0 (aX86MapSlots s)
    = Some (idx, m) ->
  PhysX86AddrBase m = NIL_X86PADDR ->
  pspStubX86PhysMap s a fMmio =
  (let base := Z.land a (Z.lnot (_64M - 1)) in
   let mt := if fMmio then 6 else 4 in
   let s0 := x86_slot_program idx base mt
               (set_x86 (<[idx := mkX86Map base mt (x86_cRefs m)]> (aX86MapSlots s)) s) in
   (set_x86 (<[idx := mkX86Map base mt (wrap32 (x86_cRefs m + 1))]> (aX86MapSlots s0)) s0,
    INF_SUCCESS, wrap32 (67108864 + Z.of_nat idx * _64M + wrap32 (a - base)))).
Proof.
  intros Hf Hnil. unfold pspStubX86PhysMap. rewrite Hf, Hnil, Z.eqb_refl. reflexivity.
Qed.
Lemma set_x86_slots (l : list PSPX86MAPPING) (s : PSPSTUBSTATE) :
  aX86MapSlots (set_x86 l s) = l /\ hw (set_x86 l s) = hw s.
Proof. split; reflexivity. Qed.

Lemma x86_map_new (s : PSPSTUBSTATE) (a : Z) (fMmio : bool) (idx : nat) (m : PSPX86MAPPING) :
  let base := Z.land a (Z.lnot (_64M - 1)) in
  let mt := if fMmio then 6 else 4 in
  x86_find_slot base mt 0 (aX86MapSlots s) = Some (idx, m) ->
  PhysX86AddrBase m = NIL_X86PADDR ->
  let '(s1, rc1, p1) := pspStubX86PhysMap s a fMmio in
  rc1 = INF_SUCCESS
  /\ p1 = wrap32 (67108864 + Z.of_nat idx * _64M + wrap32 (a - base))
  /\ aX86MapSlots s1 = <[idx := mkX86Map base mt 1]> (aX86MapSlots s)
  /\ w_reg_log (hw s1) = w_reg_log (hw s) ++ x86_slot_program_stores idx base mt.
Proof.
  intros base mt Hf Hnil.
  pose proof (x86_find_slot_lookup _ _ _ _ _ _ Hf) as (_ & _ & Hc).
  assert (Hr : x86_cRefs m = 0).
  { unfold x86_slot_candidate in Hc. rewrite Hnil in Hc.
    apply orb_true_iff in Hc as [Hc|Hc]; apply andb_true_iff in Hc as [H1 H2];
      apply Z.eqb_eq in H1, H2; [exact H2|].
    exfalso. apply (x86_base_not_nil a). fold base. congruence. }
  rewrite (x86_map_alloc_eq s a fMmio idx m Hf Hnil). cbv beta iota zeta.
  fold base mt. rewrite Hr. change (wrap32 (0 + 1)) with 1.
  unfold x86_slot_program.
  destruct (reg_stores_frame (x86_slot_program_stores idx base mt)
              (set_x86 (<[idx := mkX86Map base mt 0]> (aX86MapSlots s)) s)) as [Hlog Hsl].
  rewrite (proj1 (set_x86_slots _ _)) in Hsl. rewrite (proj2 (set_x86_slots _ _)) in Hlog.
  rewrite (proj1 (set_x86_slots _ _)), (proj2 (set_x86_slots _ _)).
  split; [reflexivity|]. split; [reflexivity|]. split.
  - rewrite Hsl, list_insert_insert_eq. reflexivity.
  - exact Hlog.
Qed.

Lemma x86_map_found (s : PSPSTUBSTATE) (a : Z) (fMmio : bool) (idx : nat) (m : PSPX86MAPPING) :
  let base := Z.land a (Z.lnot (_64M - 1)) in
  let mt := if fMmio then 6 else 4 in
  x86_find_slot base mt 0 (aX86MapSlots s) = Some (idx, m) ->
  PhysX86AddrBase m <> NIL_X86PADDR ->
  pspStubX86PhysMap s a fMmio
  = (set_x86 (<[idx := mkX86Map (PhysX86AddrBase m) (uMemType m) (wrap32 (x86_cRefs m + 1))]>
                (aX86MapSlots s)) s,
     INF_SUCCESS, wrap32 (67108864 + Z.of_nat idx * _64M + wrap32 (a - base))).
Proof.
  intros base mt Hf Hnil. unfold pspStubX86PhysMap. fold base mt. rewrite Hf.
  rewrite (proj2 (Z.eqb_neq _ _) Hnil). reflexivity.
Qed.

(** C7: mapping the same x86 address twice, starting from a slot taken
    from the sentinel state, yields the same local pointer both times and
    refcounts 1 then 2; the six control-register stores of the slot are
    made by the first call only; unmapping twice brings the refcount back
    to 1 and then returns the slot to the sentinel (NIL base, memtype 0,
    refcount 0), every other slot being left as it was. *)
Theorem C7_x86_map_reuse (s : PSPSTUBSTATE) (a : Z) (fMmio : bool) (idx : nat)
    (m : PSPX86MAPPING) (s1 s2 s3 s4 : PSPSTUBSTATE) (rc1 rc2 rc3 rc4 p1 p2 : Z) :
  let base := Z.land a (Z.lnot (_64M - 1)) in
  let mt := if fMmio then 6 else 4 in
  length (aX86MapSlots s) = 15%nat ->
  x86_find_slot base mt 0 (aX86MapSlots s) = Some (idx, m) ->
  PhysX86AddrBase m = NIL_X86PADDR ->
  pspStubX86PhysMap s a fMmio = (s1, rc1, p1) ->
  pspStubX86PhysMap s1 a fMmio = (s2, rc2, p2) ->
  pspStubX86PhysUnmapByPtr s2 p2 = (s3, rc3) ->
  pspStubX86PhysUnmapByPtr s3 p1 = (s4, rc4) ->
  rc1 = INF_SUCCESS /\ rc2 = INF_SUCCESS /\ p2 = p1
  /\ aX86MapSlots s1 = <[idx := mkX86Map base mt 1]> (aX86MapSlots s)
  /\ aX86MapSlots s2 = <[idx := mkX86Map base mt 2]> (aX86MapSlots s)
  /\ w_reg_log (hw s1) = w_reg_log (hw s) ++ x86_slot_program_stores idx base mt
  /\ w_reg_log (hw s2) = w_reg_log (hw s1)
  /\ rc3 = INF_SUCCESS /\ rc4 = INF_SUCCESS
  /\ aX86MapSlots s3 = <[idx := mkX86Map base mt 1]> (aX86MapSlots s)
  /\ aX86MapSlots s4 = <[idx := mkX86Map NIL_X86PADDR 0 0]> (aX86MapSlots s)
  /\ w_reg_log (hw s3) = w_reg_log (hw s2)
  /\ w_reg_log (hw s4) = w_reg_log (hw s3) ++ x86_slot_clear_stores idx.
Proof.
  intros base mt Hlen Hf Hnil E1 E2 E3 E4. subst base mt.
  set (base := Z.land a (Z.lnot (_64M - 1))) in *.
  set (mt := if fMmio then 6 else 4) in *.
  pose proof (x86_map_new s a fMmio idx m Hf Hnil) as H1. rewrite E1 in H1.
  destruct H1 as (-> & -> & Hs1 & Hl1).
  pose proof (x86_find_slot_lookup _ _ _ _ _ _ Hf) as (_ & Hlk & _).
  rewrite Nat.sub_0_r in Hlk.
  assert (Hi : (idx < length (aX86MapSlots s))%nat) by (eapply lookup_lt_Some; eauto).
  assert (Hf1 : x86_find_slot base mt 0 (aX86MapSlots s1) = Some (idx, mkX86Map base mt 1)).
  { rewrite Hs1. replace idx with (idx - 0)%nat at 1 by lia.
    apply x86_find_slot_insert with m; [exact Hf|].
    unfold x86_slot_candidate. cbn [PhysX86AddrBase uMemType]. rewrite !Z.eqb_refl.
    apply orb_true_r. }
  rewrite (x86_map_found s1 a fMmio idx _ Hf1 (x86_base_not_nil a)) in E2.
  fold base mt in E2.
  injection E2 as <- <- <-.
  rewrite (proj1 (set_x86_slots _ _)), (proj2 (set_x86_slots _ _)).
  cbn [PhysX86AddrBase uMemType x86_cRefs] in *. change (wrap32 (1 + 1)) with 2 in *.
  rewrite Hs1, list_insert_insert_eq in *.
  set (p := wrap32 (67108864 + Z.of_nat idx * _64M + wrap32 (a - base))) in *.
  assert (Hlen2 : length (<[idx := mkX86Map base mt 2]> (aX86MapSlots s)) = 15%nat)
    by (rewrite length_insert; exact Hlen).
  pose proof (x86_unmap_at (set_x86 (<[idx := mkX86Map base mt 2]> (aX86MapSlots s)) s1)
                idx a (mkX86Map base mt 2) Hlen2
                (list_lookup_insert_eq _ _ _ Hi) ltac:(discriminate)) as U1.
  change (Z.land a (Z.lnot (_64M - 1))) with base in U1. fold p in U1. rewrite U1 in E3. cbn [x86_cRefs PhysX86AddrBase uMemType] in E3.
  change (2 - 1 =? 0) with false in E3. change (2 - 1) with 1 in E3.
  injection E3 as <- <-.
  lazymatch type of E4 with pspStubX86PhysUnmapByPtr ?st _ = _ =>
    assert (Hst : aX86MapSlots st = <[idx := mkX86Map base mt 1]> (aX86MapSlots s))
      by (rewrite !(proj1 (set_x86_slots _ _)); apply list_insert_insert_eq);
    assert (Hhw : hw st = hw s1) by reflexivity;
    pose proof (x86_unmap_at st idx a (mkX86Map base mt 1)) as U2;
    set (s3 := st) in *
  end.
  rewrite Hst in U2.
  specialize (U2 (eq_trans (length_insert _ _ _) Hlen) (list_lookup_insert_eq _ _ _ Hi)
                 ltac:(discriminate)).
  change (Z.land a (Z.lnot (_64M - 1))) with base in U2. fold p in U2.
  change (Z.land a (Z.lnot (_64M - 1))) with base in E4. fold p in E4.   rewrite U2 in E4. cbn [x86_cRefs] in E4. change (1 - 1 =? 0) with true in E4.
  injection E4 as <- <-.
  unfold x86_slot_clear.
  destruct (reg_stores_frame (x86_slot_clear_stores idx)
              (set_x86 (<[idx := mkX86Map NIL_X86PADDR 0 0]>
                          (<[idx := mkX86Map base mt 1]> (aX86MapSlots s))) s3)) as [Hl4 Hs4].
  rewrite (proj1 (set_x86_slots _ _)) in Hs4.
  rewrite list_insert_insert_eq in Hs4 at 2.
  rewrite (proj2 (set_x86_slots _ _)), Hhw in Hl4.
  repeat split; assumption || reflexivity.
Qed.

Lemma C7_x86_map_reuse_witness :
  let s := x86_fresh_state in
  let a := PhysX86UartBase in
  let '(s1, rc1, p1) := pspStubX86PhysMap s a true in
  let '(s2, rc2, p2) := pspStubX86PhysMap s1 a true in
  let '(s3, rc3) := pspStubX86PhysUnmapByPtr s2 p2 in
  let '(s4, rc4) := pspStubX86PhysUnmapByPtr s3 p1 in
  p2 = p1 /\ rc4 = INF_SUCCESS /\ aX86MapSlots s4 = aX86MapSlots s.
Proof.
  intros s a.
  destruct (pspStubX86PhysMap s a true) as [[s1 rc1] p1] eqn:E1.
  destruct (pspStubX86PhysMap s1 a true) as [[s2 rc2] p2] eqn:E2.
  destruct (pspStubX86PhysUnmapByPtr s2 p2) as [s3 rc3] eqn:E3.
  destruct (pspStubX86PhysUnmapByPtr s3 p1) as [s4 rc4] eqn:E4.
  pose proof (C7_x86_map_reuse s a true 0 (mkX86Map NIL_X86PADDR 0 0)
                s1 s2 s3 s4 rc1 rc2 rc3 rc4 p1 p2) as H.
  cbv zeta in H.
  destruct (H ltac:(vm_compute; reflexivity) ltac:(vm_compute; reflexivity)
              ltac:(reflexivity) E1 E2 E3 E4)
    as (_ & _ & Hp & _ & _ & _ & _ & _ & Hrc4 & _ & Hs4 & _).
  split; [exact Hp|]. split; [exact Hrc4|].
  rewrite Hs4. vm_compute. reflexivity.
Defined.

(** C8: when no x86 slot is free (every refcount non-zero) and none holds
    the 64 MiB base of the requested address, pspStubX86PhysMap fails with
    INVALID_STATE, hands out no pointer and changes nothing, whatever the
    memtype. *)
Theorem C8_x86_map_exhausted (s : PSPSTUBSTATE) (a : Z) (fMmio : bool) :
  Forall (fun m => x86_cRefs m <> 0
                   /\ PhysX86AddrBase m <> Z.land a (Z.lnot (_64M - 1)))
         (aX86MapSlots s) ->
  pspStubX86PhysMap s a fMmio = (s, ERR_INVALID_STATE, 0).
Proof.
  intros H. unfold pspStubX86PhysMap. cbv zeta.
  rewrite x86_find_slot_none; [reflexivity|].
  eapply Forall_impl; [exact H|]. intros m [Hr Hb]. unfold x86_slot_candidate.
  apply orb_false_iff; split; apply andb_false_iff; [right|left];
    apply Z.eqb_neq; assumption.
Qed.

Lemma C8_x86_map_exhausted_witness :
  NoDup (map PhysX86AddrBase (aX86MapSlots x86_full_state))
  /\ length (aX86MapSlots x86_full_state) = 15%nat
  /\ pspStubX86PhysMap x86_full_state (15 * _64M) false
     = (x86_full_state, ERR_INVALID_STATE, 0)
  /\ pspStubX86PhysMap x86_full_state (15 * _64M) true
     = (x86_full_state, ERR_INVALID_STATE, 0).
Proof.
  split; [vm_compute; repeat constructor; set_solver|].
  split; [reflexivity|].
  split; apply C8_x86_map_exhausted; apply (bool_decide_unpack _); vm_compute; exact I.
Defined.

(* ------------------------------------------------------------------ *)
(** ** The counter of sent PDUs *)

Lemma uart_write_frame (s : PSPSTUBSTATE) (bs : list Z) :
  let '(s', rc) := PSPUartWrite s bs in
  cPdusSent s' = cPdusSent s /\ fConnected s' = fConnected s
  /\ w_tx (hw s') = (if rc =? 0 then w_tx (hw s) ++ [bs] else w_tx (hw s)).
Proof.
  unfold PSPUartWrite. cbv zeta.
  destruct (w_wr_rc (hw s) (w_nwr (hw s)) =? 0) eqn:E; cbn; rewrite ?E; auto.
Qed.

Lemma send_frame_frame (s : PSPSTUBSTATE) (h : PSPSERIALPDUHDR) (pl : list Z) :
  let '(s', rc) := pspStubPduSendFrame s h pl in
  cPdusSent s' = cPdusSent s /\ fConnected s' = fConnected s
  /\ (rc = 0 -> exists rest, w_tx (hw s') = w_tx (hw s) ++ hdr_bytes h :: rest).
Proof.
  unfold pspStubPduSendFrame.
  pose proof (uart_write_frame s (hdr_bytes h)) as W1.
  destruct (PSPUartWrite s (hdr_bytes h)) as [s1 r1]. destruct W1 as (A1 & B1 & C1).
  destruct (Z.eqb_spec r1 0) as [->|Hr1]; cbn [andb].
  - cbv beta iota in C1.
    assert (Hmid : let '(s2, r2) := if negb (bool_decide (pl = [])) then PSPUartWrite s1 pl
                                     else (s1, 0) in
                   cPdusSent s2 = cPdusSent s /\ fConnected s2 = fConnected s
                   /\ exists rest, w_tx (hw s2) = w_tx (hw s) ++ hdr_bytes h :: rest).
    { destruct (negb _).
      - pose proof (uart_write_frame s1 pl) as W2.
        destruct (PSPUartWrite s1 pl) as [s2 r2]. destruct W2 as (A2 & B2 & C2).
        split; [congruence|]. split; [congruence|].
        rewrite C2, C1. destruct (r2 =? 0).
        + exists [pl]. rewrite <- app_assoc. reflexivity.
        + exists []. reflexivity.
      - split; [congruence|]. split; [congruence|]. exists []. exact C1. }
    destruct (if negb _ then _ else _) as [s2 r2].
    destruct Hmid as (A2 & B2 & rest & C2).
    destruct (r2 =? 0).
    + pose proof (uart_write_frame s2 (footer_bytes (pspStubPduChkSum h pl)
                                         PSP_SERIAL_PSP_2_EXT_PDU_END_MAGIC)) as W3.
      destruct (PSPUartWrite s2 _) as [s3 r3]. destruct W3 as (A3 & B3 & C3).
      split; [congruence|]. split; [congruence|]. intros ->.
      exists (rest ++ [footer_bytes (pspStubPduChkSum h pl) PSP_SERIAL_PSP_2_EXT_PDU_END_MAGIC]).
      rewrite C3, C2. simpl. rewrite <- app_assoc. reflexivity.
    + split; [congruence|]. split; [congruence|]. intros _. exists rest. exact C2.
  - destruct (r1 =? 0) eqn:E; [apply Z.eqb_eq in E; contradiction|].
    split; [congruence|]. split; [congruence|]. intros ->. contradiction.
Qed.

Lemma send_hdr_counter (s : PSPSTUBSTATE) (rcReq0 idCcd0 enm : Z) (pl : list Z) :
  let '(s', h) := pspStubPduSendHdr s rcReq0 idCcd0 enm pl in
  cPdusSent s' = wrap32 (cPdusSent s + 1) /\ cPdus h = wrap32 (cPdusSent s + 1)
  /\ enmRrnId h = enm /\ fConnected s' = fConnected s /\ w_tx (hw s') = w_tx (hw s).
Proof. unfold pspStubPduSendHdr, pspStubGetMillies. cbn. auto. Qed.

Lemma wrap32_add_succ (c : Z) (k : nat) :
  wrap32 (wrap32 (c + 1) + Z.of_nat k) = wrap32 (c + Z.of_nat (S k)).
Proof. unfold wrap32. rewrite Zplus_mod_idemp_l. f_equal. lia. Qed.

Lemma send_seq_counters (s : PSPSTUBSTATE) (reqs : list (Z * Z * Z * list Z)) :
  snd (pspStubPduSendSeq s reqs)
  = map (fun k => wrap32 (cPdusSent s + Z.of_nat k)) (seq 1 (length reqs)).
Proof.
  revert s. induction reqs as [|[[[rcReq0 idCcd0] enm] pl] reqs IH]; intros s;
    cbn [pspStubPduSendSeq length]; [reflexivity|].
  pose proof (send_hdr_counter s rcReq0 idCcd0 enm pl) as H1.
  destruct (pspStubPduSendHdr s rcReq0 idCcd0 enm pl) as [s1 h].
  cbv beta iota in H1. destruct H1 as (A1 & B1 & _).
  pose proof (send_frame_frame s1 h pl) as H2.
  destruct (pspStubPduSendFrame s1 h pl) as [s2 r2].
  cbv beta iota in H2. destruct H2 as (A2 & _).
  specialize (IH s2). destruct (pspStubPduSendSeq s2 reqs) as [s3 cs].
  cbn [snd] in *. rewrite A2, A1 in IH.
  rewrite IH, B1. cbn [seq map]. f_equal.
  rewrite <- (seq_shift (length reqs) 1), map_map.
  apply map_ext. intros k. apply wrap32_add_succ.
Qed.

Lemma connect_counter (fuel : nat) (s s' : PSPSTUBSTATE) (c rc : Z) :
  pspStubCheckConnection fuel s c = Some (s', rc) ->
  fConnected s = false -> fConnected s' = true ->
  cPdusSent s' = 1
  /\ exists h rest, w_tx (hw s') = w_tx (hw s) ++ hdr_bytes h :: rest
                    /\ cPdus h = 1 /\ enmRrnId h = PSPSERIALPDURRNID_RESPONSE_CONNECT.
Proof.
  unfold pspStubCheckConnection. intros H Hc0 Hc1.
  destruct (pspStubPduRecv fuel s c) as [[[s1 rc1] p1]|] eqn:Er; [|discriminate].
  destruct (recv_frame_recv _ _ _ _ _ _ Er) as (_&_&_&Hc&_&_&Htx&_).
  destruct (rc1 =? INF_SUCCESS); [|injection H as <- _; congruence].
  destruct (rcvd_tag s1 p1 =? _); [|injection H as <- _; congruence].
  unfold pspStubPduSend in H.
  pose proof (send_hdr_counter (set_cPdusSent 0 s1) INF_SUCCESS 0
                PSPSERIALPDURRNID_RESPONSE_CONNECT connect_resp) as H1.
  destruct (pspStubPduSendHdr _ _ _ _ _) as [s2 h]. cbv beta iota in H1, H.
  destruct H1 as (A1 & B1 & C1 & D1 & E1).
  pose proof (send_frame_frame s2 h connect_resp) as H2.
  destruct (pspStubPduSendFrame s2 h connect_resp) as [s3 r3].
  cbv beta iota in H2. destruct H2 as (A2 & B2 & C2).
  destruct (r3 =? 0) eqn:Hr.
  - apply Z.eqb_eq in Hr. injection H as <- _. cbn [cPdusSent set_fConnected]. split; [rewrite A2, A1; reflexivity|].
    destruct (C2 Hr) as [rest Hrest]. exists h, rest. split; [|split; [exact B1|exact C1]].
    cbn. rewrite Hrest, E1. cbn. rewrite Htx. reflexivity.
  - injection H as <- _. cbn in B2, D1. congruence.
Qed.

(** C5 (corrected): every call of pspStubPduSend stamps its header with
    [++cPdusSent], computed modulo 2^32, whatever the UART writes then
    return: successive sends from counter c build headers carrying c+1,
    c+2, ... (mod 2^32). When pspStubCheckConnection connects the stub it
    has set cPdusSent to 0 just before the response, so the first chunk it
    writes is a CONNECT response header carrying 1, and cPdusSent is 1
    afterwards. *)
Theorem C5_send_counters (s : PSPSTUBSTATE) (reqs : list (Z * Z * Z * list Z))
    (fuel : nat) (c rc : Z) (s' : PSPSTUBSTATE) :
  snd (pspStubPduSendSeq s reqs)
  = map (fun k => wrap32 (cPdusSent s + Z.of_nat k)) (seq 1 (length reqs))
  /\ (pspStubCheckConnection fuel s c = Some (s', rc) ->
      fConnected s = false -> fConnected s' = true ->
      cPdusSent s' = 1
      /\ exists h rest, w_tx (hw s') = w_tx (hw s) ++ hdr_bytes h :: rest
                        /\ cPdus h = 1
                        /\ enmRrnId h = PSPSERIALPDURRNID_RESPONSE_CONNECT).
Proof.
  split; [apply send_seq_counters|]. apply connect_counter.
Qed.

Lemma C5_send_counters_witness :
  snd (pspStubPduSendSeq connect_state three_empty_responses) = [6; 7; 8]
  /\ match pspStubCheckConnection 10 connect_state 1000 with
     | Some (s', rc) =>
         fConnected s' = true /\ cPdusSent s' = 1
         /\ exists h rest, w_tx (hw s') = hdr_bytes h :: rest /\ cPdus h = 1
     | None => False
     end.
Proof.
  split.
  { rewrite (proj1 (C5_send_counters connect_state three_empty_responses 10 1000 0
                      connect_state)).
    vm_compute. reflexivity. }
  destruct (pspStubCheckConnection 10 connect_state 1000) as [[s' rc]|] eqn:E.
  - assert (Hc : fConnected s' = true).
    { change (fConnected s')
        with (match Some (s', rc) with Some (s, _) => fConnected s | None => false end).
      rewrite <- E. vm_compute. reflexivity. }
    destruct (proj2 (C5_send_counters connect_state [] 10 1000 rc s') E eq_refl Hc)
      as (Hn & h & rest & Htx & Hh & _).
    split; [exact Hc|]. split; [exact Hn|]. exists h, rest. split; [exact Htx|exact Hh].
  - vm_compute in E. discriminate.
Defined.

(** C5 counterexample: when the header write of the second of three
    responses fails, the headers on the wire carry 1 and then 3; and from
    the largest counter value the next headers carry 0, 1, 2. *)
Lemma C5_counter_gap_and_wrap :
  (let '(s', cs) := pspStubPduSendSeq third_write_fails_state three_empty_responses in
   cs = [1; 2; 3] /\ length (w_tx (hw s')) = 4%nat
   /\ cPdus (tx_hdr s' 0) = 1 /\ cPdus (tx_hdr s' 2) = 3)
  /\ snd (pspStubPduSendSeq counter_full_state three_empty_responses) = [0; 1; 2].
Proof. vm_compute. repeat split. Qed.

(* ------------------------------------------------------------------ *)
(** ** The checksum *)

Lemma chksum_add_sum (acc : Z) (bs : list Z) :
  chksum_add (wrap32 acc) bs = wrap32 (acc + zsum bs).
Proof.
  unfold chksum_add. revert acc. induction bs as [|b bs IH]; intros acc; simpl.
  - f_equal. lia.
  - replace (wrap32 (wrap32 acc + b)) with (wrap32 (acc + b))
      by (unfold wrap32; rewrite Zplus_mod_idemp_l; reflexivity).
    rewrite IH. f_equal. lia.
Qed.

Lemma chksum_add_0 (bs : list Z) : chksum_add 0 bs = wrap32 (zsum bs).
Proof. apply (chksum_add_sum 0 bs). Qed.

Lemma chksum_add_app0 (bs cs : list Z) :
  chksum_add (chksum_add 0 bs) cs = wrap32 (zsum bs + zsum cs).
Proof. rewrite chksum_add_0, chksum_add_sum. reflexivity. Qed.

Lemma le_bytes_S (n : nat) (v : Z) :
  le_bytes (S n) v = Z.land v 255 :: le_bytes n (Z.shiftr v 8).
Proof.
  unfold le_bytes. cbn [seq map]. rewrite Z.shiftr_0_r. f_equal.
  rewrite <- seq_shift, map_map. apply map_ext. intros i.
  rewrite Z.shiftr_shiftr by lia. f_equal. f_equal. lia.
Qed.

Lemma length_le_bytes (n : nat) (v : Z) : length (le_bytes n v) = n.
Proof. unfold le_bytes. rewrite length_map, length_seq. reflexivity. Qed.

Lemma le_val_le_bytes (n : nat) (v : Z) :
  0 <= v < 2 ^ (8 * Z.of_nat n) -> le_val (le_bytes n v) = v.
Proof.
  revert v. induction n as [|n IH]; intros v Hv.
  - simpl in Hv. simpl. lia.
  - rewrite le_bytes_S. cbn [le_val]. rewrite IH.
    + rewrite Z.shiftr_div_pow2 by lia.
      change (Z.land v 255) with (Z.land v (Z.ones 8)). rewrite Z.land_ones by lia.
      change (2 ^ 8) with 256. pose proof (Z.div_mod v 256). lia.
    + rewrite Z.shiftr_div_pow2 by lia. change (2 ^ 8) with 256.
      replace (8 * Z.of_nat (S n)) with (8 + 8 * Z.of_nat n) in Hv by lia.
      rewrite Z.pow_add_r in Hv by lia. change (2 ^ 8) with 256 in Hv.
      split; [apply Z.div_pos; lia|]. apply Z.div_lt_upper_bound; lia.
Qed.

Lemma length_hdr_u_ab (h : PSPSERIALPDUHDR) : length (hdr_u_ab h) = 20%nat.
Proof. unfold hdr_u_ab. rewrite !length_app, !length_le_bytes. reflexivity. Qed.

Lemma sublist_app (off : nat) (bs cs : list Z) (n : nat) :
  length bs = off -> sublist off n (bs ++ cs) = take n cs.
Proof. intros <-. unfold sublist. rewrite drop_app_length. reflexivity. Qed.

(** The send side: the footer checksum of pspStubPduSend. *)
Lemma chksum_identity (h : PSPSERIALPDUHDR) (payload : list Z) :
  pspStubPduChkSum h payload
  = wrap32 ((4294967295 - wrap32 (zsum (hdr_u_ab h) + zsum payload)) + 1)
  /\ wrap32 (zsum (hdr_u_ab h) + zsum payload + pspStubPduChkSum h payload) = 0.
Proof.
  unfold pspStubPduChkSum. rewrite chksum_add_app0. split; [reflexivity|].
  set (x := zsum (hdr_u_ab h) + zsum payload).
  unfold wrap32. rewrite Zplus_mod_idemp_r.
  change (2 ^ 32) with 4294967296.
  replace (x + (4294967295 - x mod 4294967296 + 1)) with (4294967296 * (x / 4294967296 + 1))
    by (pose proof (Z.div_mod x 4294967296); lia).
  rewrite Z.mul_comm. apply Z_mod_mult.
Qed.

(** The receive side: on a buffer holding a header, its payload and a
    footer, pspStubPduValidate accepts exactly when the same identity
    holds and the end magic is the EXT to PSP one. *)
Lemma validate_iff (s : PSPSTUBSTATE) (h : PSPSERIALPDUHDR) (payload : list Z)
    (chk magic : Z) (rest : list Z) :
  abPdu s = hdr_bytes h ++ payload ++ footer_bytes chk magic ++ rest ->
  cbPdu h = Z.of_nat (length payload) -> cbPdu h < 2 ^ 32 ->
  0 <= chk < 2 ^ 32 -> 0 <= magic < 2 ^ 32 ->
  (pspStubPduValidate s = 0
   <-> wrap32 (zsum (hdr_u_ab h) + zsum payload + chk) = 0
       /\ magic = PSP_SERIAL_EXT_2_PSP_PDU_END_MAGIC).
Proof.
  intros Hbuf Hcb Hcb32 Hchk Hmag.
  assert (Hlen : length (hdr_bytes h) = cbHdr)
    by (unfold hdr_bytes; rewrite length_app, length_le_bytes, length_hdr_u_ab; reflexivity).
  assert (Hdec : cbPdu (hdr_decode (abPdu s)) = cbPdu h).
  { unfold hdr_decode. cbn [cbPdu]. rewrite Hbuf. unfold hdr_bytes. rewrite <- app_assoc.
    rewrite (sublist_app 4 (le_bytes 4 (u32Magic h))) by apply length_le_bytes.
    unfold hdr_u_ab. rewrite <- !app_assoc, take_app_length' by (rewrite length_le_bytes; reflexivity).
    apply le_val_le_bytes. change (2 ^ (8 * Z.of_nat 4)) with (2 ^ 32). lia. }
  unfold pspStubPduValidate. cbv zeta. rewrite Hdec, Hcb, Nat2Z.id.
  rewrite Hbuf.
  replace (sublist 4 20 (hdr_bytes h ++ payload ++ footer_bytes chk magic ++ rest))
    with (hdr_u_ab h).
  2:{ unfold hdr_bytes. rewrite <- app_assoc.
      rewrite (sublist_app 4 (le_bytes 4 (u32Magic h))) by apply length_le_bytes.
      rewrite take_app_length'; [reflexivity|rewrite length_hdr_u_ab; reflexivity]. }
  rewrite (sublist_app cbHdr (hdr_bytes h)) by exact Hlen.
  rewrite take_app_length' by reflexivity.
  rewrite app_assoc, (sublist_app (cbHdr + length payload) (hdr_bytes h ++ payload))
    by (rewrite length_app, Hlen; reflexivity).
  unfold footer_bytes. rewrite <- app_assoc.
  rewrite take_app_length' by (rewrite length_le_bytes; reflexivity).
  rewrite (app_assoc (hdr_bytes h ++ payload)),
    (sublist_app (cbHdr + length payload + 4) ((hdr_bytes h ++ payload) ++ le_bytes 4 chk))
    by (rewrite !length_app, Hlen, length_le_bytes; reflexivity).
  rewrite take_app_length' by (rewrite length_le_bytes; reflexivity).
  rewrite !le_val_le_bytes by (change (2 ^ (8 * Z.of_nat 4)) with (2 ^ 32); lia).
  rewrite chksum_add_app0.
  assert (E : wrap32 (wrap32 (zsum (hdr_u_ab h) + zsum payload) + chk)
              = wrap32 (zsum (hdr_u_ab h) + zsum payload + chk))
    by (unfold wrap32; apply Zplus_mod_idemp_l).
  rewrite E.
  destruct (Z.eqb_spec (wrap32 (zsum (hdr_u_ab h) + zsum payload + chk)) 0);
    destruct (Z.eqb_spec magic PSP_SERIAL_EXT_2_PSP_PDU_END_MAGIC); cbn;
    split; intros H; try discriminate; try tauto.
Qed.

(** C9 (corrected): the footer checksum of every PDU pspStubPduSend builds
    is (0xffffffff - sum) + 1, where sum is the 32-bit running sum of the
    header bytes that follow the start magic ([u.ab]) and of the payload
    bytes; so those header bytes, the payload bytes and the checksum add
    up to 0 modulo 2^32.  pspStubPduValidate accepts a received PDU exactly
    when the same identity holds over the same bytes and the end magic is
    the EXT to PSP one. *)
Theorem C9_checksum_identity (h : PSPSERIALPDUHDR) (payload : list Z)
    (s : PSPSTUBSTATE) (h' : PSPSERIALPDUHDR) (payload' : list Z) (chk magic : Z)
    (rest : list Z) :
  (pspStubPduChkSum h payload
   = wrap32 ((4294967295 - wrap32 (zsum (hdr_u_ab h) + zsum payload)) + 1)
   /\ wrap32 (zsum (hdr_u_ab h) + zsum payload + pspStubPduChkSum h payload) = 0)
  /\ (abPdu s = hdr_bytes h' ++ payload' ++ footer_bytes chk magic ++ rest ->
      cbPdu h' = Z.of_nat (length payload') -> cbPdu h' < 2 ^ 32 ->
      0 <= chk < 2 ^ 32 -> 0 <= magic < 2 ^ 32 ->
      (pspStubPduValidate s = 0
       <-> wrap32 (zsum (hdr_u_ab h') + zsum payload' + chk) = 0
           /\ magic = PSP_SERIAL_EXT_2_PSP_PDU_END_MAGIC)).
Proof.
  split; [apply chksum_identity|]. apply validate_iff.
Qed.

Lemma C9_checksum_identity_witness :
  pspStubPduValidate mem_read_req_state = 0.
Proof.
  apply (proj2 (proj2 (C9_checksum_identity mem_read_req_hdr (xfer_req 327680 4)
                         mem_read_req_state mem_read_req_hdr (xfer_req 327680 4)
                         (pspStubPduChkSum mem_read_req_hdr (xfer_req 327680 4))
                         PSP_SERIAL_EXT_2_PSP_PDU_END_MAGIC (repeat 0 4048))
                   ltac:(vm_compute; reflexivity) ltac:(vm_compute; reflexivity)
                   ltac:(vm_compute; congruence) ltac:(split; vm_compute; congruence)
                   ltac:(split; vm_compute; congruence))).
  split; vm_compute; reflexivity.
Defined.

(** C9 counterexample: on the first PDU the stub writes (its first beacon),
    the sum over all header bytes, start magic included, plus the payload
    bytes and the checksum is not 0 modulo 2^32; leaving out the four
    magic bytes it is. *)
Lemma C9_magic_not_covered :
  let tx := w_tx (hw (fst (pspStubBeaconSend x86_fresh_state))) in
  wrap32 (zsum (default [] (tx !! 0%nat)) + zsum (default [] (tx !! 1%nat))
          + le_val (take 4 (default [] (tx !! 2%nat)))) <> 0
  /\ wrap32 (zsum (drop 4 (default [] (tx !! 0%nat))) + zsum (default [] (tx !! 1%nat))
             + le_val (take 4 (default [] (tx !! 2%nat)))) = 0.
Proof. vm_compute. split; [intros H; discriminate H|reflexivity]. Qed.

(* ------------------------------------------------------------------ *)
(** ** The timer *)

Lemma timer_tick_loop_spec (fuel : nat) (tm c : Z) :
  0 <= c -> c / 100000 < Z.of_nat fuel ->
  pspStubTimerTickLoop fuel tm c = Some (tm + c / 100000, c mod 100000).
Proof.
  revert tm c. induction fuel as [|fuel IH]; intros tm c Hc Hf; [pose proof (Z.div_pos c 100000 Hc ltac:(lia)); simpl in Hf; lia|].
  simpl. destruct (c >=? 100000) eqn:Hge.
  - apply Z.geb_le in Hge. unfold TMTick.
    assert (Hq : (c - 100000) / 100000 = c / 100000 - 1).
    { replace (c - 100000) with (c + (-1) * 100000) by ring.
      rewrite Z.div_add by lia. ring. }
    rewrite IH by (try rewrite Hq; lia). rewrite Hq.
    replace (c - 100000) with (c + (-1) * 100000) by ring.
    rewrite Z_mod_plus_full. f_equal. f_equal. ring.
  - rewrite Z.geb_leb, Z.leb_gt in Hge.
    rewrite Z.div_small, Z.mod_small by lia. f_equal. f_equal. ring.
Qed.

Lemma timer_ticks_passed (cHw old : Z) :
  0 <= cHw < 2 ^ 32 -> 0 <= old < 2 ^ 32 ->
  (if cHw >=? old then wrap32 (cHw - old) else wrap32 (cHw + (4294967295 - old) + 1))
  = wrap32 (cHw - old).
Proof.
  intros H1 H2. destruct (cHw >=? old); [reflexivity|]. unfold wrap32.
  replace (cHw + (4294967295 - old) + 1) with (cHw - old + 1 * 2 ^ 32) by (cbn; ring).
  apply Z_mod_plus_full.
Qed.

Lemma timer_fuel_bound (c : Z) : 0 <= c < 2 ^ 32 -> c / 100000 < Z.of_nat TimerLoopFuel.
Proof.
  intros Hc. unfold TimerLoopFuel. rewrite Nat2Z.inj_add, Z2Nat.id by (vm_compute; congruence).
  assert (c / 100000 <= 2 ^ 32 / 100000) by (apply Z.div_le_mono; lia). simpl. lia.
Qed.

(** The tick accounting of one call. *)
Lemma timer_handle_eq (cHw : Z) (t : PSPTIMER) :
  0 <= cHw < 2 ^ 32 -> 0 <= cCnts t < 2 ^ 32 -> 0 <= cSubMsTicks t < 100000 ->
  let n := wrap32 (cHw - cCnts t) + cSubMsTicks t in
  pspStubTimerHandle cHw t = Some (mkTimer (Tm t + n / 100000) cHw (n mod 100000)).
Proof.
  intros Hhw Hc Hs n. unfold pspStubTimerHandle.
  rewrite timer_ticks_passed by assumption.
  set (d := wrap32 (cHw - cCnts t)).
  assert (Hd : 0 <= d < 2 ^ 32) by (apply Z.mod_pos_bound; reflexivity).
  rewrite timer_tick_loop_spec by (try apply timer_fuel_bound; lia).
  assert (Hr : 0 <= d mod 100000 < 100000) by (apply Z.mod_pos_bound; lia).
  assert (Hw : wrap32 (d mod 100000 + cSubMsTicks t) = d mod 100000 + cSubMsTicks t)
    by (unfold wrap32; apply Z.mod_small; simpl; lia).
  rewrite Hw.
  assert (Hn : n = 100000 * (d / 100000) + (d mod 100000 + cSubMsTicks t))
    by (unfold n; pose proof (Z.div_mod d 100000); lia).
  destruct (d mod 100000 + cSubMsTicks t >=? 100000) eqn:Hge.
  - apply Z.geb_le in Hge. unfold TMTick.
    assert (Hq : n / 100000 = d / 100000 + 1) by (symmetry; apply Z.div_unique with (d mod 100000 + cSubMsTicks t - 100000); lia).
    assert (Hm : n mod 100000 = d mod 100000 + cSubMsTicks t - 100000) by (symmetry; apply Z.mod_unique with (d / 100000 + 1); lia).
    rewrite Hq, Hm. f_equal. f_equal. ring.
  - rewrite Z.geb_leb, Z.leb_gt in Hge.
    assert (Hq : n / 100000 = d / 100000) by (symmetry; apply Z.div_unique with (d mod 100000 + cSubMsTicks t); lia).
    assert (Hm : n mod 100000 = d mod 100000 + cSubMsTicks t) by (symmetry; apply Z.mod_unique with (d / 100000); lia).
    rewrite Hq, Hm. reflexivity.
Qed.

(** One pspStubTimerHandle call moves the counter snapshot to the value
    read and adds the ticks elapsed since the last snapshot, modulo the
    32-bit wraparound, to the millisecond accumulator and the sub-ms
    remainder, which stays below 1 ms. *)
Theorem timer_handle_ticks (cHw : Z) (t : PSPTIMER) :
  0 <= cHw < 2 ^ 32 -> 0 <= cCnts t < 2 ^ 32 -> 0 <= cSubMsTicks t < 100000 ->
  exists t', pspStubTimerHandle cHw t = Some t'
  /\ cCnts t' = cHw
  /\ 0 <= cSubMsTicks t' < 100000
  /\ 100000 * (Tm t' - Tm t) + cSubMsTicks t' = wrap32 (cHw - cCnts t) + cSubMsTicks t.
Proof.
  intros H1 H2 H3. rewrite timer_handle_eq by assumption.
  eexists. split; [reflexivity|]. cbn [cCnts cSubMsTicks Tm].
  set (n := wrap32 (cHw - cCnts t) + cSubMsTicks t).
  split; [reflexivity|]. split; [apply Z.mod_pos_bound; lia|].
  pose proof (Z.div_mod n 100000). lia.
Qed.

Lemma timer_handle_seq_acc (cnts : list Z) (t : PSPTIMER) :
  Forall (fun c => 0 <= c < 2 ^ 32) cnts ->
  0 <= cCnts t < 2 ^ 32 -> 0 <= cSubMsTicks t < 100000 ->
  exists t', pspStubTimerHandleSeq cnts t = Some t'
  /\ cCnts t' = timer_cnt_last (cCnts t) cnts
  /\ 0 <= cSubMsTicks t' < 100000
  /\ 100000 * (Tm t' - Tm t) + cSubMsTicks t'
     = timer_ticks_elapsed (cCnts t) cnts + cSubMsTicks t.
Proof.
  revert t. induction cnts as [|c cnts IH]; intros t Hall Hc Hs.
  - exists t. simpl. repeat split; lia.
  - inversion Hall as [|? ? Hc0 Hall']; subst.
    assert (Ht1 : exists t1, pspStubTimerHandle c t = Some t1 /\ cCnts t1 = c
              /\ 0 <= cSubMsTicks t1 < 100000
              /\ 100000 * (Tm t1 - Tm t) + cSubMsTicks t1 = wrap32 (c - cCnts t) + cSubMsTicks t).
    { rewrite timer_handle_eq by assumption. eexists. split; [reflexivity|].
      cbn [cCnts cSubMsTicks Tm]. set (n := wrap32 (c - cCnts t) + cSubMsTicks t).
      split; [reflexivity|]. split; [apply Z.mod_pos_bound; lia|].
      pose proof (Z.div_mod n 100000). lia. }
    destruct Ht1 as (t1 & E1 & Hc1 & Hs1 & Ha1).
    destruct (IH t1 Hall' ltac:(lia) Hs1) as (t2 & E2 & Hc2 & Hs2 & Ha2).
    exists t2. simpl. rewrite E1. split; [exact E2|].
    rewrite Hc1 in Hc2, Ha2. split.
    + rewrite Hc2. reflexivity.
    + split; [exact Hs2|]. lia.
Qed.

(** From a successful pspStubTimerInit, the accumulator counts the whole
    milliseconds in the ticks elapsed since the counter was cleared. *)
Theorem timer_init_handle_seq (rcTm tm0 : Z) (t t0 : PSPTIMER) (rc : Z)
    (stores : list (Z * Z)) (cnts : list Z) :
  pspStubTimerInit rcTm tm0 t = (t0, rc, stores) -> rc = 0 ->
  Forall (fun c => 0 <= c < 2 ^ 32) cnts ->
  stores = [(PspTimerCnt, 0); (PspTimerCtrl, 257)]
  /\ exists t', pspStubTimerHandleSeq cnts t0 = Some t'
  /\ Tm t' = tm0 + timer_ticks_elapsed 0 cnts / 100000
  /\ cSubMsTicks t' = timer_ticks_elapsed 0 cnts mod 100000
  /\ cCnts t' = timer_cnt_last 0 cnts.
Proof.
  intros Hi Hrc Hall. unfold pspStubTimerInit in Hi.
  destruct (rcTm =? 0) eqn:E; injection Hi as <- <- <-; [|subst; discriminate].
  split; [reflexivity|].
  destruct (timer_handle_seq_acc cnts (mkTimer tm0 0 0) Hall ltac:(simpl; lia) ltac:(simpl; lia))
    as (t' & E1 & Hc & Hs & Ha).
  exists t'. split; [exact E1|]. cbn [Tm cCnts cSubMsTicks] in *.
  set (e := timer_ticks_elapsed 0 cnts) in *.
  assert (Hq : e / 100000 = Tm t' - tm0) by (symmetry; apply Z.div_unique with (cSubMsTicks t'); lia).
  assert (Hm : e mod 100000 = cSubMsTicks t') by (symmetry; apply Z.mod_unique with (Tm t' - tm0); lia).
  split; [lia|]. split; [lia|]. exact Hc.
Qed.

Lemma timer_init_handle_seq_witness :
  let cnts := [250000; 4294967000; 50000] in
  [(PspTimerCnt, 0); (PspTimerCtrl, 257)] = [(PspTimerCnt, 0); (PspTimerCtrl, 257)]
  /\ exists t', pspStubTimerHandleSeq cnts (mkTimer 7 0 0) = Some t'
  /\ Tm t' = 7 + timer_ticks_elapsed 0 cnts / 100000
  /\ cSubMsTicks t' = timer_ticks_elapsed 0 cnts mod 100000
  /\ cCnts t' = timer_cnt_last 0 cnts.
Proof.
  apply (timer_init_handle_seq 0 7 (mkTimer 0 0 0) (mkTimer 7 0 0) 0
           [(PspTimerCnt, 0); (PspTimerCtrl, 257)]);
    [reflexivity | reflexivity | repeat constructor; vm_compute; congruence].
Defined.

(* ------------------------------------------------------------------ *)
(** ** The mapping windows *)


Lemma set_smn_slots (l : list PSPSMNMAPPING) (s : PSPSTUBSTATE) :
  aSmnMapSlots (set_smn l s) = l /\ hw (set_smn l s) = hw s.
Proof. split; reflexivity. Qed.

Lemma smn_find_slot_lookup (base : Z) (i : nat) (l : list PSPSMNMAPPING)
    (k : nat) (m : PSPSMNMAPPING) :
  smn_find_slot base i l = Some (k, m) ->
  (i <= k)%nat /\ l !! (k - i)%nat = Some m /\ smn_slot_candidate base m = true.
Proof.
  revert i. induction l as [|m' l IH]; intros i; simpl; [discriminate|].
  destruct (smn_slot_candidate base m') eqn:Hc.
  - intros [= <- <-]. rewrite Nat.sub_diag. auto.
  - intros H. destruct (IH _ H) as (H1 & H2 & H3). split; [lia|].
    replace (k - i)%nat with (S (k - S i)) by lia. simpl. auto.
Qed.

Lemma smn_find_slot_none (base : Z) (i : nat) (l : list PSPSMNMAPPING) :
  Forall (fun m => smn_slot_candidate base m = false) l ->
  smn_find_slot base i l = None.
Proof.
  revert i. induction l as [|m l IH]; intros i Hl; simpl; [reflexivity|].
  inversion Hl as [|? ? Hm Hl']; subst. rewrite Hm. apply IH. exact Hl'.
Qed.

Lemma land_lnot_1M (a : Z) : Z.land a (Z.lnot (_1M - 1)) = a / _1M * _1M.
Proof.
  unfold _1M. replace (2 ^ 20 - 1) with (Z.ones 20) by reflexivity.
  rewrite <- Z.ldiff_land, Z.ldiff_ones_r by discriminate.
  rewrite Z.shiftl_mul_pow2, Z.shiftr_div_pow2 by discriminate. reflexivity.
Qed.

Lemma smn_base_range (a : Z) : 0 <= a < 2 ^ 32 ->
  0 <= Z.land a (Z.lnot (_1M - 1)) < 2 ^ 32.
Proof.
  intros Ha. rewrite land_lnot_1M. replace _1M with 1048576 by reflexivity.
  pose proof (Z.mul_div_le a 1048576). pose proof (Z.div_pos a 1048576). lia.
Qed.

(** The local pointer handed out for slot [idx] at address [a]. *)
Lemma smn_ptr_slot (idx : nat) (a : Z) : (idx < 32)%nat ->
  wrap32 (Z.land (wrap32 (16777216 + Z.of_nat idx * _1M
                          + wrap32 (a - Z.land a (Z.lnot (_1M - 1)))))
                 (Z.lnot (_1M - 1)) - 16777216)
  = Z.of_nat idx * _1M.
Proof.
  intros Hidx. rewrite !land_lnot_1M.
  replace _1M with 1048576 by reflexivity. unfold wrap32.
  replace (2 ^ 32) with 4294967296 by reflexivity.
  replace (a - a / 1048576 * 1048576) with (a mod 1048576)
    by (rewrite Z.mod_eq by discriminate; ring).
  set (r := a mod 1048576).
  assert (Hr : 0 <= r < 1048576) by (apply Z.mod_pos_bound; reflexivity).
  rewrite (Z.mod_small r) by lia.
  rewrite (Z.mod_small (16777216 + Z.of_nat idx * 1048576 + r)) by lia.
  replace ((16777216 + Z.of_nat idx * 1048576 + r) / 1048576) with (16 + Z.of_nat idx)
    by (apply Z.div_unique with r; lia).
  rewrite Z.mod_small by lia. lia.
Qed.

Lemma smn_ptr_value (idx : nat) (a : Z) : (idx < 32)%nat ->
  wrap32 (16777216 + Z.of_nat idx * _1M + wrap32 (a - Z.land a (Z.lnot (_1M - 1))))
  = 16777216 + Z.of_nat idx * _1M + a mod _1M.
Proof.
  intros Hidx. rewrite land_lnot_1M. replace _1M with 1048576 by reflexivity.
  unfold wrap32. replace (2 ^ 32) with 4294967296 by reflexivity.
  replace (a - a / 1048576 * 1048576) with (a mod 1048576)
    by (rewrite Z.mod_eq by discriminate; ring).
  assert (Hr : 0 <= a mod 1048576 < 1048576) by (apply Z.mod_pos_bound; reflexivity).
  rewrite (Z.mod_small (a mod 1048576)) by lia. apply Z.mod_small. lia.
Qed.

Lemma smn_keep_set (idx : nat) (base r : Z) : 0 <= base < 2 ^ 32 ->
  smn_ctrl_keep idx (smn_ctrl_set idx base r) = smn_ctrl_keep idx r.
Proof.
  intros Hb. unfold smn_ctrl_keep, smn_ctrl_set.
  destruct (Z.odd (Z.of_nat idx)).
  - unfold wrap32. rewrite <- Z.land_ones by lia.
    apply Z.bits_inj'. intros n Hn.
    rewrite !Z.land_spec, Z.lor_spec, Z.shiftl_spec by exact Hn.
    replace 65535 with (Z.ones 16) by reflexivity.
    rewrite !Z.testbit_ones_nonneg by lia.
    destruct (Z.ltb_spec n 16); [|rewrite !andb_false_r; reflexivity].
    rewrite (Z.testbit_neg_r _ (n - 16)) by lia.
    destruct (Z.ltb_spec n 32); [|lia]. rewrite orb_false_r, andb_true_r. reflexivity.
  - apply Z.bits_inj'. intros n Hn.
    rewrite !Z.land_spec, Z.lor_spec, Z.shiftr_spec by exact Hn.
    replace 4294901760 with (Z.ldiff (Z.ones 32) (Z.ones 16)) by reflexivity.
    rewrite Z.ldiff_spec, !Z.testbit_ones_nonneg by lia.
    destruct (Z.ltb_spec n 16); [rewrite !andb_false_r; reflexivity|].
    rewrite <- (Z.mod_small base (2 ^ 32)) by lia.
    rewrite Z.mod_pow2_bits_high by lia. rewrite orb_false_r. reflexivity.
Qed.

Lemma smn_map_alloc (s : PSPSTUBSTATE) (a : Z) (idx : nat) (m : PSPSMNMAPPING) :
  let base := Z.land a (Z.lnot (_1M - 1)) in
  smn_find_slot base 0 (aSmnMapSlots s) = Some (idx, m) ->
  SmnAddrBase m = 0 ->
  let '(s1, rc1, p) := pspStubSmnPhysMap s a in
  rc1 = INF_SUCCESS
  /\ p = wrap32 (16777216 + Z.of_nat idx * _1M + wrap32 (a - base))
  /\ aSmnMapSlots s1 = <[idx := mkSmnMap base (wrap32 (smn_cRefs m + 1))]> (aSmnMapSlots s)
  /\ aX86MapSlots s1 = aX86MapSlots s
  /\ w_regs (hw s1) = <[smn_ctrl_reg idx := smn_ctrl_set idx base (reg_load (smn_ctrl_reg idx) s)]>
                        (w_regs (hw s))
  /\ w_reg_log (hw s1) = w_reg_log (hw s)
                         ++ [(smn_ctrl_reg idx, smn_ctrl_set idx base (reg_load (smn_ctrl_reg idx) s))]
  /\ s1 = set_smn (aSmnMapSlots s1) (reg_store (smn_ctrl_reg idx)
             (smn_ctrl_set idx base (reg_load (smn_ctrl_reg idx) s)) s).
Proof.
  intros base Hf Hnil. unfold pspStubSmnPhysMap. fold base. rewrite Hf, Hnil, Z.eqb_refl.
  cbv zeta. unfold reg_load, reg_store, smn_ctrl_set, smn_ctrl_reg. cbn.
  rewrite list_insert_insert_eq.
  repeat split; reflexivity.
Qed.

Lemma smn_unmap_at (s : PSPSTUBSTATE) (idx : nat) (a : Z) (m : PSPSMNMAPPING) :
  length (aSmnMapSlots s) = 32%nat ->
  aSmnMapSlots s !! idx = Some m -> smn_cRefs m <> 0 ->
  pspStubSmnUnmapByPtr s
    (wrap32 (16777216 + Z.of_nat idx * _1M + wrap32 (a - Z.land a (Z.lnot (_1M - 1)))))
  = if smn_cRefs m - 1 =? 0
    then (reg_store (smn_ctrl_reg idx) (smn_ctrl_keep idx (reg_load (smn_ctrl_reg idx) s))
            (set_smn (<[idx := mkSmnMap 0 0]> (aSmnMapSlots s)) s), INF_SUCCESS)
    else (set_smn (<[idx := mkSmnMap (SmnAddrBase m) (smn_cRefs m - 1)]> (aSmnMapSlots s)) s,
          INF_SUCCESS).
Proof.
  intros Hlen Hm Hr.
  assert (Hi : (idx < 32)%nat) by (rewrite <- Hlen; eapply lookup_lt_Some; eauto).
  unfold pspStubSmnUnmapByPtr. rewrite smn_ptr_slot by exact Hi.
  rewrite Z.div_mul, Z_mod_mult by (unfold _1M; lia). rewrite Nat2Z.id, Hlen.
  replace ((Z.of_nat idx <? Z.of_nat 32) && (0 =? 0)) with true
    by (symmetry; apply andb_true_iff; split; [apply Z.ltb_lt; lia | reflexivity]).
  rewrite Hm. rewrite (proj2 (Z.eqb_neq _ _) Hr). reflexivity.
Qed.

(** Mapping an SMN address whose 1 MiB base is not 0 into a free slot and
    unmapping the pointer returned: both succeed, the slot table is as
    before, and the shared control register keeps only the half of the
    paired slot; the register sees two stores. *)
Theorem smn_map_unmap_roundtrip (s s1 s2 : PSPSTUBSTATE) (a : Z) (idx : nat)
    (m : PSPSMNMAPPING) (rc1 rc2 p : Z) :
  let base := Z.land a (Z.lnot (_1M - 1)) in
  let r := reg_load (smn_ctrl_reg idx) s in
  length (aSmnMapSlots s) = 32%nat -> 0 <= a < 2 ^ 32 -> base <> 0 ->
  smn_find_slot base 0 (aSmnMapSlots s) = Some (idx, m) -> SmnAddrBase m = 0 ->
  pspStubSmnPhysMap s a = (s1, rc1, p) ->
  pspStubSmnUnmapByPtr s1 p = (s2, rc2) ->
  rc1 = INF_SUCCESS /\ rc2 = INF_SUCCESS
  /\ p = 16777216 + Z.of_nat idx * _1M + a mod _1M
  /\ aSmnMapSlots s1 = <[idx := mkSmnMap base 1]> (aSmnMapSlots s)
  /\ aSmnMapSlots s2 = aSmnMapSlots s
  /\ w_regs (hw s2) = <[smn_ctrl_reg idx := smn_ctrl_keep idx r]> (w_regs (hw s))
  /\ w_reg_log (hw s2) = w_reg_log (hw s) ++ [(smn_ctrl_reg idx, smn_ctrl_set idx base r);
                                              (smn_ctrl_reg idx, smn_ctrl_keep idx r)].
Proof.
  intros base r Hlen Ha Hb Hf Hnil E1 E2.
  pose proof (smn_find_slot_lookup _ _ _ _ _ Hf) as (_ & Hl & Hc).
  rewrite Nat.sub_0_r in Hl.
  assert (Hi : (idx < 32)%nat) by (rewrite <- Hlen; eapply lookup_lt_Some; eauto).
  assert (Hr0 : smn_cRefs m = 0).
  { unfold smn_slot_candidate in Hc. rewrite Hnil in Hc.
    apply orb_true_iff in Hc as [Hc|Hc];
      [apply andb_true_iff in Hc as [_ H]; apply Z.eqb_eq; exact H|].
    apply Z.eqb_eq in Hc. congruence. }
  pose proof (smn_map_alloc s a idx m Hf Hnil) as HM. rewrite E1 in HM. fold base in HM.
  destruct HM as (-> & Hp & Hs1 & _ & Hreg1 & Hlog1 & Hs1eq).
  rewrite Hr0 in Hs1. change (wrap32 (0 + 1)) with 1 in Hs1.
  assert (Hl1 : aSmnMapSlots s1 !! idx = Some (mkSmnMap base 1))
    by (rewrite Hs1; apply list_lookup_insert_eq; lia).
  assert (Hlen1 : length (aSmnMapSlots s1) = 32%nat) by (rewrite Hs1, length_insert; exact Hlen).
  subst p. unfold base in E2. rewrite (smn_unmap_at s1 idx a _ Hlen1 Hl1 ltac:(cbn; lia)) in E2.
  cbn [smn_cRefs] in E2. change (1 - 1 =? 0) with true in E2. injection E2 as <- <-.
  assert (Hv : reg_load (smn_ctrl_reg idx) s1 = smn_ctrl_set idx base r).
  { unfold reg_load. rewrite Hreg1, lookup_insert_eq. reflexivity. }
  rewrite Hv. cbn [aSmnMapSlots reg_store set_smn hw w_regs w_reg_log w_upd_regs set_hw].
  split; [reflexivity|]. split; [reflexivity|].
  split; [apply smn_ptr_value; exact Hi|]. split; [exact Hs1|].
  split.
  - rewrite Hs1, list_insert_insert_eq. apply list_insert_id.
    rewrite Hl. f_equal. destruct m; cbn in *; congruence.
  - rewrite smn_keep_set by (apply smn_base_range; exact Ha). split.
    + rewrite Hreg1, insert_insert_eq. reflexivity.
    + rewrite Hlog1, <- app_assoc. reflexivity.
Qed.

Lemma smn_unmap_index (pv : Z) :
  wrap32 (Z.land pv (Z.lnot (_1M - 1)) - 16777216) = ((pv / _1M - 16) mod 4096) * _1M.
Proof.
  rewrite land_lnot_1M. unfold wrap32.
  replace (pv / _1M * _1M - 16777216) with ((pv / _1M - 16) * _1M) by (unfold _1M; ring).
  replace (2 ^ 32) with (4096 * _1M) by reflexivity.
  apply Z.mul_mod_distr_r; unfold _1M; lia.
Qed.

Lemma x86_unmap_index (pv : Z) :
  wrap32 (Z.land pv (Z.lnot (_64M - 1)) - 67108864) = ((pv / _64M - 1) mod 64) * _64M.
Proof.
  rewrite land_lnot_64M. unfold wrap32.
  replace (pv / _64M * _64M - 67108864) with ((pv / _64M - 1) * _64M) by (unfold _64M; ring).
  replace (2 ^ 32) with (64 * _64M) by reflexivity.
  apply Z.mul_mod_distr_r; unfold _64M; lia.
Qed.

(** Unmapping by pointer succeeds exactly for pointers into the window
    of an SMN slot holding a reference; any other pointer gives
    INVALID_PARAMETER and leaves the stub as it was. *)
Theorem smn_unmap_validity (s : PSPSTUBSTATE) (pv : Z) :
  length (aSmnMapSlots s) = 32%nat -> 0 <= pv < 2 ^ 32 ->
  (smn_ptr_live s pv -> snd (pspStubSmnUnmapByPtr s pv) = INF_SUCCESS)
  /\ (~ smn_ptr_live s pv -> pspStubSmnUnmapByPtr s pv = (s, ERR_INVALID_PARAMETER)).
Proof.
  intros Hlen Hpv. unfold pspStubSmnUnmapByPtr. rewrite smn_unmap_index, Hlen.
  rewrite Z.div_mul, Z_mod_mult by (unfold _1M; lia). change (Z.of_nat 32) with 32.
  set (q := (pv / _1M - 16) mod 4096).
  assert (Hq : 0 <= q < 4096) by (apply Z.mod_pos_bound; lia).
  assert (Hwin : forall idx : nat, (idx < 32)%nat ->
            16777216 + Z.of_nat idx * _1M <= pv < 16777216 + (Z.of_nat idx + 1) * _1M
            <-> q = Z.of_nat idx).
  { intros idx Hi. unfold q. replace _1M with 1048576 by reflexivity. split.
    - intros Hw. replace (pv / 1048576) with (16 + Z.of_nat idx)
        by (apply Z.div_unique with (pv - (16 + Z.of_nat idx) * 1048576); lia).
      rewrite Z.mod_small; lia.
    - intros Heq. pose proof (Z.div_mod pv 1048576 ltac:(lia)).
      pose proof (Z.mod_pos_bound pv 1048576 ltac:(lia)).
      assert (pv / 1048576 < 4096) by (apply Z.div_lt_upper_bound; lia).
      assert (0 <= pv / 1048576) by (apply Z.div_pos; lia).
      destruct (Z.ltb_spec (pv / 1048576) 16).
      + exfalso. rewrite <- (Z_mod_plus_full _ 1) in Heq.
        rewrite Z.mod_small in Heq by lia. lia.
      + rewrite Z.mod_small in Heq by lia. lia. }
  destruct (Z.ltb_spec q 32) as [Hlt|Hge]; cbn [andb].
  - destruct (aSmnMapSlots s !! Z.to_nat q) as [m|] eqn:Hm.
    2:{ exfalso. apply lookup_ge_None in Hm. lia. }
    assert (Hin : smn_ptr_live s pv <-> smn_cRefs m <> 0).
    { split.
      - intros (idx & m' & Hl & Hr & Hw).
        assert (Hi : (idx < 32)%nat) by (rewrite <- Hlen; eapply lookup_lt_Some; eauto).
        apply (Hwin idx Hi) in Hw. subst q. rewrite Hw, Nat2Z.id in Hm. congruence.
      - intros Hr. exists (Z.to_nat q), m. split; [exact Hm|]. split; [exact Hr|].
        apply Hwin; [lia|]. lia. }
    destruct (Z.eqb_spec (smn_cRefs m) 0) as [Hr|Hr]; cbn [negb].
    + split; [intros Hl; apply Hin in Hl; contradiction|reflexivity].
    + split; [|intros Hn; exfalso; apply Hn, Hin, Hr].
      intros _. destruct (smn_cRefs m - 1 =? 0); reflexivity.
  - split; [|reflexivity].
    intros (idx & m' & Hl & _ & Hw).
    assert (Hi : (idx < 32)%nat) by (rewrite <- Hlen; eapply lookup_lt_Some; eauto).
    apply (Hwin idx Hi) in Hw. lia.
Qed.

(** Unmapping by pointer succeeds exactly for pointers into the 64 MiB
    window of an x86 slot holding a reference; any other pointer gives
    INVALID_PARAMETER and leaves the stub as it was. *)
Theorem x86_unmap_validity (s : PSPSTUBSTATE) (pv : Z) :
  length (aX86MapSlots s) = 15%nat -> 0 <= pv < 2 ^ 32 ->
  (x86_ptr_live s pv -> snd (pspStubX86PhysUnmapByPtr s pv) = INF_SUCCESS)
  /\ (~ x86_ptr_live s pv -> pspStubX86PhysUnmapByPtr s pv = (s, ERR_INVALID_PARAMETER)).
Proof.
  intros Hlen Hpv. unfold pspStubX86PhysUnmapByPtr. rewrite x86_unmap_index, Hlen.
  rewrite Z.div_mul, Z_mod_mult by (unfold _64M; lia). change (Z.of_nat 15) with 15.
  set (q := (pv / _64M - 1) mod 64).
  assert (Hq : 0 <= q < 64) by (apply Z.mod_pos_bound; lia).
  assert (Hwin : forall idx : nat, (idx < 15)%nat ->
            67108864 + Z.of_nat idx * _64M <= pv < 67108864 + (Z.of_nat idx + 1) * _64M
            <-> q = Z.of_nat idx).
  { intros idx Hi. unfold q. replace _64M with 67108864 by reflexivity. split.
    - intros Hw. replace (pv / 67108864) with (1 + Z.of_nat idx)
        by (apply Z.div_unique with (pv - (1 + Z.of_nat idx) * 67108864); lia).
      rewrite Z.mod_small; lia.
    - intros Heq. pose proof (Z.div_mod pv 67108864 ltac:(lia)).
      pose proof (Z.mod_pos_bound pv 67108864 ltac:(lia)).
      assert (pv / 67108864 < 64) by (apply Z.div_lt_upper_bound; lia).
      assert (0 <= pv / 67108864) by (apply Z.div_pos; lia).
      destruct (Z.ltb_spec (pv / 67108864) 1).
      + exfalso. rewrite <- (Z_mod_plus_full _ 1) in Heq.
        rewrite Z.mod_small in Heq by lia. lia.
      + rewrite Z.mod_small in Heq by lia. lia. }
  destruct (Z.ltb_spec q 15) as [Hlt|Hge]; cbn [andb].
  - destruct (aX86MapSlots s !! Z.to_nat q) as [m|] eqn:Hm.
    2:{ exfalso. apply lookup_ge_None in Hm. lia. }
    assert (Hin : x86_ptr_live s pv <-> x86_cRefs m <> 0).
    { split.
      - intros (idx & m' & Hl & Hr & Hw).
        assert (Hi : (idx < 15)%nat) by (rewrite <- Hlen; eapply lookup_lt_Some; eauto).
        apply (Hwin idx Hi) in Hw. subst q. rewrite Hw, Nat2Z.id in Hm. congruence.
      - intros Hr. exists (Z.to_nat q), m. split; [exact Hm|]. split; [exact Hr|].
        apply Hwin; [lia|]. lia. }
    destruct (Z.eqb_spec (x86_cRefs m) 0) as [Hr|Hr]; cbn [negb].
    + split; [intros Hl; apply Hin in Hl; contradiction|reflexivity].
    + split; [|intros Hn; exfalso; apply Hn, Hin, Hr].
      intros _. destruct (x86_cRefs m - 1 =? 0); reflexivity.
  - split; [|reflexivity].
    intros (idx & m' & Hl & _ & Hw).
    assert (Hi : (idx < 15)%nat) by (rewrite <- Hlen; eapply lookup_lt_Some; eauto).
    apply (Hwin idx Hi) in Hw. lia.
Qed.

(** With every SMN slot holding a reference to some other base, a map
    call fails with INVALID_STATE and changes nothing. *)
Theorem smn_map_exhausted (s : PSPSTUBSTATE) (a : Z) :
  Forall (fun m => smn_cRefs m <> 0 /\ SmnAddrBase m <> Z.land a (Z.lnot (_1M - 1)))
         (aSmnMapSlots s) ->
  pspStubSmnPhysMap s a = (s, ERR_INVALID_STATE, 0).
Proof.
  intros H. unfold pspStubSmnPhysMap. cbv zeta.
  rewrite smn_find_slot_none; [reflexivity|].
  eapply Forall_impl; [exact H|]. intros m [Hr Hb]. unfold smn_slot_candidate.
  apply orb_false_iff; split; [apply andb_false_iff; right|]; apply Z.eqb_neq; assumption.
Qed.

(** SMN base 0 is also the mark of a free slot: mapping an address of the
    first MiB finds a slot of base 0 and takes the set-up path on every
    call, however many references the slot holds, storing the shared
    control register again (its value unchanged). *)
Theorem smn_map_base0_reprogram (s s1 : PSPSTUBSTATE) (a : Z) (idx : nat)
    (m : PSPSMNMAPPING) (rc p : Z) :
  let r := reg_load (smn_ctrl_reg idx) s in
  0 <= a < _1M -> 0 <= r < 2 ^ 32 ->
  smn_find_slot 0 0 (aSmnMapSlots s) = Some (idx, m) ->
  pspStubSmnPhysMap s a = (s1, rc, p) ->
  rc = INF_SUCCESS /\ SmnAddrBase m = 0
  /\ aSmnMapSlots s1 = <[idx := mkSmnMap 0 (wrap32 (smn_cRefs m + 1))]> (aSmnMapSlots s)
  /\ w_regs (hw s1) = <[smn_ctrl_reg idx := r]> (w_regs (hw s))
  /\ w_reg_log (hw s1) = w_reg_log (hw s) ++ [(smn_ctrl_reg idx, r)].
Proof.
  intros r Ha Hr Hf E.
  assert (Hb : Z.land a (Z.lnot (_1M - 1)) = 0).
  { rewrite land_lnot_1M. rewrite Z.div_small by exact Ha. reflexivity. }
  pose proof (smn_find_slot_lookup _ _ _ _ _ Hf) as (_ & _ & Hc).
  assert (Hnil : SmnAddrBase m = 0).
  { unfold smn_slot_candidate in Hc.
    apply orb_true_iff in Hc as [Hc|Hc]; [apply andb_true_iff in Hc as [Hc _]|];
      apply Z.eqb_eq; exact Hc. }
  rewrite <- Hb in Hf.
  pose proof (smn_map_alloc s a idx m Hf Hnil) as HM. rewrite E in HM.
  destruct HM as (-> & _ & Hs1 & _ & Hreg & Hlog & _).
  assert (Hset : smn_ctrl_set idx 0 r = r).
  { unfold smn_ctrl_set. rewrite Z.shiftr_0_l, Z.shiftl_0_l, Z.lor_0_r.
    destruct (Z.odd _); [apply Z.mod_small; exact Hr|reflexivity]. }
  rewrite Hb in Hs1, Hreg, Hlog. fold r in Hreg, Hlog. rewrite Hset in Hreg, Hlog.
  repeat split; assumption.
Qed.

(* Frame facts: what leaves the slot tables alone. *)



Lemma uart_write_slots (s : PSPSTUBSTATE) (bs : list Z) :
  slots_of (fst (PSPUartWrite s bs)) = slots_of s.
Proof. unfold PSPUartWrite. cbv zeta. destruct (_ =? 0); reflexivity. Qed.

Lemma send_slots (s : PSPSTUBSTATE) (rcReq0 idCcd0 enm : Z) (pl : list Z) :
  slots_of (fst (pspStubPduSend s rcReq0 idCcd0 enm pl)) = slots_of s.
Proof.
  unfold pspStubPduSend, pspStubPduSendHdr, pspStubPduSendFrame. cbn [fst snd].
  destruct (pspStubGetMillies (set_cPdusSent (wrap32 (cPdusSent s + 1)) s)) as [s0 ts] eqn:E0.
  assert (H0 : slots_of s0 = slots_of s)
    by (unfold pspStubGetMillies in E0; injection E0 as <- _; reflexivity).
  cbv beta iota.
  set (h := pspStubPduHdrInit _ _ _ _ _ _).
  pose proof (uart_write_slots s0 (hdr_bytes h)) as H1.
  destruct (PSPUartWrite s0 (hdr_bytes h)) as [s1 r1]. cbn [fst] in H1.
  destruct ((r1 =? 0) && negb (bool_decide (pl = []))).
  - pose proof (uart_write_slots s1 pl) as H2.
    destruct (PSPUartWrite s1 pl) as [s2 r2]. cbn [fst] in H2.
    destruct (r2 =? 0); [rewrite uart_write_slots|]; cbn [fst]; congruence.
  - destruct (r1 =? 0); [rewrite uart_write_slots|]; cbn [fst]; congruence.
Qed.

Lemma mem_write_slots (a : Z) (bs : list Z) (s : PSPSTUBSTATE) :
  slots_of (mem_write a bs s) = slots_of s.
Proof. reflexivity. Qed.

Lemma mmio_write_slots (a : Z) (src : list Z) (cb : Z) (s : PSPSTUBSTATE) :
  slots_of (pspStubMmioWrite a src cb s) = slots_of s.
Proof. unfold pspStubMmioWrite. destruct (mmio_width_ok cb); reflexivity. Qed.

Lemma reg_stores_slots (l : list (Z * Z)) (s : PSPSTUBSTATE) :
  slots_of (reg_stores l s) = slots_of s.
Proof.
  unfold reg_stores. revert s. induction l as [|[a v] l IH]; intros s; [reflexivity|].
  cbn [fold_left]. rewrite IH. reflexivity.
Qed.

Lemma x86_slot_program_smn (idx : nat) (b mt : Z) (s : PSPSTUBSTATE) :
  aSmnMapSlots (x86_slot_program idx b mt s) = aSmnMapSlots s.
Proof.
  unfold x86_slot_program, reg_stores. generalize (x86_slot_program_stores idx b mt) as l.
  intros l. revert s. induction l as [|[x v] l IH]; intros s; [reflexivity|].
  cbn [fold_left]. rewrite IH. reflexivity.
Qed.

Lemma set_x86_smn (l : list PSPX86MAPPING) (s : PSPSTUBSTATE) :
  aSmnMapSlots (set_x86 l s) = aSmnMapSlots s.
Proof. reflexivity. Qed.

Lemma x86_map_smn (s : PSPSTUBSTATE) (a : Z) (fMmio : bool) :
  aSmnMapSlots (fst (fst (pspStubX86PhysMap s a fMmio))) = aSmnMapSlots s.
Proof.
  unfold pspStubX86PhysMap.
  destruct (x86_find_slot _ _ _ _) as [[idx m]|]; [|reflexivity].
  destruct (PhysX86AddrBase m =? NIL_X86PADDR); [|reflexivity].
  cbv beta iota. cbn [fst]. rewrite set_x86_smn, x86_slot_program_smn. reflexivity.
Qed.

Lemma x86_map_unmap_slots (s s1 : PSPSTUBSTATE) (a : Z) (fMmio : bool) (rc p : Z) :
  Forall x86_slot_wf (aX86MapSlots s) -> length (aX86MapSlots s) = 15%nat ->
  pspStubX86PhysMap s a fMmio = (s1, rc, p) ->
  ((rc =? 0) = false /\ s1 = s)
  \/ (rc = 0 /\ aSmnMapSlots s1 = aSmnMapSlots s
      /\ forall s2, aX86MapSlots s2 = aX86MapSlots s1 ->
         slots_of (fst (pspStubX86PhysUnmapByPtr s2 p)) = (aX86MapSlots s, aSmnMapSlots s2)).
Proof.
  intros Hwf Hlen E.
  pose proof (x86_map_smn s a fMmio) as HS. rewrite E in HS. cbn [fst] in HS.
  set (base := Z.land a (Z.lnot (_64M - 1))) in *.
  set (mt := if fMmio then 6 else 4) in *.
  destruct (x86_find_slot base mt 0 (aX86MapSlots s)) as [[idx m]|] eqn:Hf.
  2:{ left. unfold pspStubX86PhysMap in E. fold base mt in E. rewrite Hf in E.
      injection E as <- <- _. split; reflexivity. }
  right.
  pose proof (x86_find_slot_lookup _ _ _ _ _ _ Hf) as (_ & Hl & Hc).
  rewrite Nat.sub_0_r in Hl.
  pose proof (proj1 (Forall_lookup _ _) Hwf idx m Hl) as Hm.
  destruct (Z.eqb_spec (PhysX86AddrBase m) NIL_X86PADDR) as [Hnil|Hnil].
  - destruct Hm as [(Hb & Ht & Hr) | (Hb & _)]; [|contradiction].
    pose proof (x86_map_new s a fMmio idx m Hf Hnil) as HM. rewrite E in HM.
    destruct HM as (-> & Hp & Hs1 & _).
    split; [reflexivity|]. split; [exact HS|].
    intros s2 Hs2. rewrite Hs1 in Hs2.
    assert (Hl2 : aX86MapSlots s2 !! idx = Some (mkX86Map base mt 1))
      by (rewrite Hs2; apply list_lookup_insert_eq; eapply lookup_lt_Some; eauto).
    assert (Hlen2 : length (aX86MapSlots s2) = 15%nat) by (rewrite Hs2, length_insert; exact Hlen).
    rewrite Hp. unfold base.
    rewrite (x86_unmap_at s2 idx a _ Hlen2 Hl2 ltac:(cbn; lia)).
    cbn [x86_cRefs]. change (1 - 1 =? 0) with true. cbv beta iota. cbn [fst].
    unfold x86_slot_clear. rewrite reg_stores_slots. unfold slots_of. cbn [aX86MapSlots aSmnMapSlots set_x86].
    rewrite Hs2, list_insert_insert_eq, list_insert_id; [reflexivity|].
    rewrite Hl. destruct m; cbn in *; subst; reflexivity.
  - destruct Hm as [(Hb & _) | (_ & Hr)]; [contradiction|].
    rewrite (x86_map_found s a fMmio idx m Hf Hnil) in E. injection E as <- <- <-.
    split; [reflexivity|]. split; [reflexivity|].
    intros s2 Hs2. cbn [aX86MapSlots set_x86] in Hs2.
    replace (wrap32 (x86_cRefs m + 1)) with (x86_cRefs m + 1) in Hs2
      by (unfold wrap32; rewrite Z.mod_small; lia).
    assert (Hl2 : aX86MapSlots s2 !! idx
                  = Some (mkX86Map (PhysX86AddrBase m) (uMemType m) (x86_cRefs m + 1)))
      by (rewrite Hs2; apply list_lookup_insert_eq; eapply lookup_lt_Some; eauto).
    assert (Hlen2 : length (aX86MapSlots s2) = 15%nat) by (rewrite Hs2, length_insert; exact Hlen).
    unfold base. rewrite (x86_unmap_at s2 idx a _ Hlen2 Hl2 ltac:(cbn; lia)).
    cbn [x86_cRefs PhysX86AddrBase uMemType].
    replace (x86_cRefs m + 1 - 1 =? 0) with false by (symmetry; apply Z.eqb_neq; lia).
    replace (x86_cRefs m + 1 - 1) with (x86_cRefs m) by ring.
    unfold slots_of. cbn [fst aX86MapSlots aSmnMapSlots set_x86].
    rewrite Hs2, list_insert_insert_eq, list_insert_id; [reflexivity|].
    rewrite Hl. destruct m; reflexivity.
Qed.


Lemma smn_map_found (s : PSPSTUBSTATE) (a : Z) (idx : nat) (m : PSPSMNMAPPING) :
  smn_find_slot (Z.land a (Z.lnot (_1M - 1))) 0 (aSmnMapSlots s) = Some (idx, m) ->
  SmnAddrBase m <> 0 ->
  pspStubSmnPhysMap s a
  = (set_smn (<[idx := mkSmnMap (SmnAddrBase m) (wrap32 (smn_cRefs m + 1))]> (aSmnMapSlots s)) s,
     INF_SUCCESS,
     wrap32 (16777216 + Z.of_nat idx * _1M + wrap32 (a - Z.land a (Z.lnot (_1M - 1))))).
Proof.
  intros Hf Hb. unfold pspStubSmnPhysMap. rewrite Hf.
  rewrite (proj2 (Z.eqb_neq _ _) Hb). reflexivity.
Qed.

Lemma reg_store_slots (a v : Z) (s : PSPSTUBSTATE) :
  slots_of (reg_store a v s) = slots_of s.
Proof. reflexivity. Qed.

Lemma smn_map_unmap_slots (s s1 : PSPSTUBSTATE) (a rc p : Z) :
  Forall smn_slot_wf (aSmnMapSlots s) -> length (aSmnMapSlots s) = 32%nat ->
  pspStubSmnPhysMap s a = (s1, rc, p) ->
  ((rc =? 0) = false /\ s1 = s)
  \/ (rc = 0 /\ aX86MapSlots s1 = aX86MapSlots s
      /\ forall s2, aSmnMapSlots s2 = aSmnMapSlots s1 ->
         slots_of (fst (pspStubSmnUnmapByPtr s2 p)) = (aX86MapSlots s2, aSmnMapSlots s)).
Proof.
  intros Hwf Hlen E.
  set (base := Z.land a (Z.lnot (_1M - 1))) in *.
  destruct (smn_find_slot base 0 (aSmnMapSlots s)) as [[idx m]|] eqn:Hf.
  2:{ left. unfold pspStubSmnPhysMap in E. fold base in E. rewrite Hf in E.
      injection E as <- <- _. split; reflexivity. }
  right.
  pose proof (smn_find_slot_lookup _ _ _ _ _ Hf) as (_ & Hl & Hc).
  rewrite Nat.sub_0_r in Hl.
  pose proof (proj1 (Forall_lookup _ _) Hwf idx m Hl) as Hm.
  assert (Hi : (idx < 32)%nat) by (rewrite <- Hlen; eapply lookup_lt_Some; eauto).
  destruct (Z.eqb_spec (SmnAddrBase m) 0) as [Hnil|Hnil].
  - pose proof (smn_map_alloc s a idx m Hf Hnil) as HM. rewrite E in HM.
    destruct HM as (-> & Hp & Hs1 & Hx & _).
    split; [reflexivity|]. split; [exact Hx|].
    destruct Hm as [(_ & Hr) | (Hb & _)]; [|contradiction].
    replace (wrap32 (smn_cRefs m + 1)) with (smn_cRefs m + 1) in Hs1
      by (unfold wrap32; rewrite Z.mod_small; lia).
    intros s2 Hs2. rewrite Hs1 in Hs2.
    assert (Hl2 : aSmnMapSlots s2 !! idx = Some (mkSmnMap base (smn_cRefs m + 1)))
      by (rewrite Hs2; apply list_lookup_insert_eq; lia).
    assert (Hlen2 : length (aSmnMapSlots s2) = 32%nat) by (rewrite Hs2, length_insert; exact Hlen).
    rewrite Hp. unfold base.
    rewrite (smn_unmap_at s2 idx a _ Hlen2 Hl2 ltac:(cbn; lia)).
    cbn [smn_cRefs SmnAddrBase].
    replace (smn_cRefs m + 1 - 1) with (smn_cRefs m) by ring.
    destruct (Z.eqb_spec (smn_cRefs m) 0) as [Hr0|Hr0]; cbn [fst].
    + rewrite reg_store_slots. unfold slots_of. cbn [aX86MapSlots aSmnMapSlots set_smn].
      rewrite Hs2, list_insert_insert_eq, list_insert_id; [reflexivity|].
      rewrite Hl. destruct m; cbn in *; subst; reflexivity.
    + unfold slots_of. cbn [aX86MapSlots aSmnMapSlots set_smn].
      assert (Hb0 : base = 0).
      { unfold smn_slot_candidate in Hc. rewrite Hnil in Hc.
        apply orb_true_iff in Hc as [Hc|Hc].
        - apply andb_true_iff in Hc as [_ Hc]. apply Z.eqb_eq in Hc. contradiction.
        - apply Z.eqb_eq in Hc. congruence. }
      fold base. rewrite Hb0.
      rewrite Hs2, list_insert_insert_eq, list_insert_id; [reflexivity|].
      rewrite Hl. destruct m; cbn in *; subst; reflexivity.
  - rewrite (smn_map_found s a idx m Hf Hnil) in E. injection E as <- <- <-.
    split; [reflexivity|]. split; [reflexivity|].
    destruct Hm as [(Hb & _) | (_ & Hr)]; [contradiction|].
    intros s2 Hs2. cbn [aSmnMapSlots set_smn] in Hs2.
    replace (wrap32 (smn_cRefs m + 1)) with (smn_cRefs m + 1) in Hs2
      by (unfold wrap32; rewrite Z.mod_small; lia).
    assert (Hl2 : aSmnMapSlots s2 !! idx
                  = Some (mkSmnMap (SmnAddrBase m) (smn_cRefs m + 1)))
      by (rewrite Hs2; apply list_lookup_insert_eq; lia).
    assert (Hlen2 : length (aSmnMapSlots s2) = 32%nat) by (rewrite Hs2, length_insert; exact Hlen).
    rewrite (smn_unmap_at s2 idx a _ Hlen2 Hl2 ltac:(cbn; lia)).
    cbn [smn_cRefs SmnAddrBase].
    replace (smn_cRefs m + 1 - 1 =? 0) with false by (symmetry; apply Z.eqb_neq; lia).
    replace (smn_cRefs m + 1 - 1) with (smn_cRefs m) by ring.
    unfold slots_of. cbn [fst aX86MapSlots aSmnMapSlots set_smn].
    rewrite Hs2, list_insert_insert_eq, list_insert_id; [reflexivity|].
    rewrite Hl. destruct m; reflexivity.
Qed.

Lemma x86_xfer_tail (s s1 s3 : PSPSTUBSTATE) (p r3 : Z) :
  aSmnMapSlots s1 = aSmnMapSlots s ->
  (forall s2, aX86MapSlots s2 = aX86MapSlots s1 ->
     slots_of (fst (pspStubX86PhysUnmapByPtr s2 p)) = (aX86MapSlots s, aSmnMapSlots s2)) ->
  slots_of s3 = slots_of s1 ->
  slots_of (fst (let '(s4, _) := pspStubX86PhysUnmapByPtr s3 p in (s4, r3))) = slots_of s.
Proof.
  intros Hsmn Hun H3. injection H3 as H3x H3s.
  pose proof (Hun s3 H3x) as H.
  destruct (pspStubX86PhysUnmapByPtr s3 p) as [s4 r4]. cbn [fst] in *. rewrite H.
  unfold slots_of. congruence.
Qed.

Lemma smn_xfer_tail (s s1 s3 : PSPSTUBSTATE) (p r3 : Z) :
  aX86MapSlots s1 = aX86MapSlots s ->
  (forall s2, aSmnMapSlots s2 = aSmnMapSlots s1 ->
     slots_of (fst (pspStubSmnUnmapByPtr s2 p)) = (aX86MapSlots s2, aSmnMapSlots s)) ->
  slots_of s3 = slots_of s1 ->
  slots_of (fst (let '(s4, _) := pspStubSmnUnmapByPtr s3 p in (s4, r3))) = slots_of s.
Proof.
  intros Hx Hun H3. injection H3 as H3x H3s.
  pose proof (Hun s3 H3s) as H.
  destruct (pspStubSmnUnmapByPtr s3 p) as [s4 r4]. cbn [fst] in *. rewrite H.
  unfold slots_of. congruence.
Qed.

Ltac send_frame :=
  match goal with
  | |- context [pspStubPduSend ?s0 ?a ?b ?c ?d] =>
      let E := fresh in
      pose proof (send_slots s0 a b c d) as E;
      destruct (pspStubPduSend s0 a b c d)
  end.

(** The x86 memory and MMIO transfer handlers give back the mapping they
    take: with well-formed x86 slots, both slot tables are as before. *)
Theorem x86_xfer_keeps_slots (s : PSPSTUBSTATE) (cb : Z) (fWrite : bool) :
  Forall x86_slot_wf (aX86MapSlots s) -> length (aX86MapSlots s) = 15%nat ->
  slots_of (fst (pspStubPduProcessPspX86MemXfer s cb fWrite)) = slots_of s
  /\ slots_of (fst (pspStubPduProcessPspX86MmioXfer s cb fWrite)) = slots_of s.
Proof.
  intros Hwf Hlen.
  unfold pspStubPduProcessPspX86MemXfer, pspStubPduProcessPspX86MmioXfer.
  destruct (pspStubX86PhysMap s (req_addr (pdu_payload s)) false) as [[s1 rc] p] eqn:E.
  destruct (x86_map_unmap_slots s s1 _ false rc p Hwf Hlen E)
    as [(Hrc & ->) | (-> & Hsmn & Hun)].
  - rewrite Hrc. split; [destruct (cb <? cbXferReq)|destruct (_ || _)];
      try reflexivity; apply send_slots.
  - rewrite Z.eqb_refl.
    split; [destruct (cb <? cbXferReq)|destruct (_ || _)]; try reflexivity;
      destruct fWrite; cbv beta iota; send_frame;
      (eapply x86_xfer_tail; [exact Hsmn | exact Hun | ]);
      cbn [fst] in *;
      first [ rewrite H; first [apply mem_write_slots | apply mmio_write_slots]
            | exact H ].
Qed.

(** The SMN transfer handler gives back the mapping it takes: with
    well-formed SMN slots, both slot tables are as before. *)
Theorem smn_xfer_keeps_slots (s : PSPSTUBSTATE) (cb : Z) (fWrite : bool) :
  Forall smn_slot_wf (aSmnMapSlots s) -> length (aSmnMapSlots s) = 32%nat ->
  slots_of (fst (pspStubPduProcessPspSmnXfer s cb fWrite)) = slots_of s.
Proof.
  intros Hwf Hlen. unfold pspStubPduProcessPspSmnXfer.
  destruct (pspStubSmnPhysMap s (wrap32 (req_addr (pdu_payload s)))) as [[s1 rc] p] eqn:E.
  destruct (smn_map_unmap_slots s s1 _ rc p Hwf Hlen E)
    as [(Hrc & ->) | (-> & Hx & Hun)].
  - rewrite Hrc. destruct (_ || _); [reflexivity | apply send_slots].
  - rewrite Z.eqb_refl. destruct (_ || _); [reflexivity|].
    destruct fWrite; cbv beta iota; send_frame;
      (eapply smn_xfer_tail; [exact Hx | exact Hun | ]);
      cbn [fst] in *;
      first [ rewrite H; apply mmio_write_slots | exact H ].
Qed.

(* ------------------------------------------------------------------ *)
(** ** Instances of the allocator, handler and timer properties *)

Ltac slots_wf_by_computation :=
  match goal with |- Forall _ ?l => let l' := eval vm_compute in l in change l with l' end;
  repeat (constructor;
          [first [ left; repeat split; vm_compute; congruence
                 | right; repeat split; vm_compute; congruence ] |]);
  constructor.

Lemma timer_handle_ticks_witness :
  exists t', pspStubTimerHandle 100 (mkTimer 5 4294967000 99999) = Some t'
  /\ cCnts t' = 100 /\ 0 <= cSubMsTicks t' < 100000
  /\ 100000 * (Tm t' - 5) + cSubMsTicks t' = wrap32 (100 - 4294967000) + 99999.
Proof.
  apply (timer_handle_ticks 100 (mkTimer 5 4294967000 99999)); split; vm_compute; congruence.
Defined.

Lemma smn_map_unmap_roundtrip_witness :
  let '(s1, rc1, p) := pspStubSmnPhysMap smn_xfer_state 94371875 in
  let '(s2, rc2) := pspStubSmnUnmapByPtr s1 p in
  rc1 = INF_SUCCESS /\ rc2 = INF_SUCCESS /\ p = 16777216 + 0 * _1M + 94371875 mod _1M
  /\ aSmnMapSlots s2 = aSmnMapSlots smn_xfer_state.
Proof.
  destruct (pspStubSmnPhysMap smn_xfer_state 94371875) as [[s1 rc1] p] eqn:E1.
  destruct (pspStubSmnUnmapByPtr s1 p) as [s2 rc2] eqn:E2.
  destruct (smn_map_unmap_roundtrip smn_xfer_state s1 s2 94371875 0 (mkSmnMap 0 0) rc1 rc2 p
              ltac:(vm_compute; reflexivity) ltac:(split; vm_compute; congruence)
              ltac:(vm_compute; congruence) ltac:(vm_compute; reflexivity)
              ltac:(reflexivity) E1 E2) as (H1 & H2 & H3 & _ & H5 & _).
  split; [exact H1|]. split; [exact H2|]. split; [exact H3|exact H5].
Defined.

Lemma smn_unmap_validity_witness :
  (smn_ptr_live smn_full_state 16777221
   -> snd (pspStubSmnUnmapByPtr smn_full_state 16777221) = INF_SUCCESS)
  /\ (~ smn_ptr_live smn_full_state 16777221
      -> pspStubSmnUnmapByPtr smn_full_state 16777221 = (smn_full_state, ERR_INVALID_PARAMETER)).
Proof.
  apply smn_unmap_validity; [vm_compute; reflexivity | split; vm_compute; congruence].
Defined.

Lemma x86_unmap_validity_witness :
  (x86_ptr_live x86_full_state 67108867
   -> snd (pspStubX86PhysUnmapByPtr x86_full_state 67108867) = INF_SUCCESS)
  /\ (~ x86_ptr_live x86_full_state 67108867
      -> pspStubX86PhysUnmapByPtr x86_full_state 67108867 = (x86_full_state, ERR_INVALID_PARAMETER)).
Proof.
  apply x86_unmap_validity; [vm_compute; reflexivity | split; vm_compute; congruence].
Defined.

Lemma smn_map_exhausted_witness :
  pspStubSmnPhysMap smn_full_state 67108864 = (smn_full_state, ERR_INVALID_STATE, 0).
Proof.
  apply smn_map_exhausted.
  match goal with |- Forall _ ?l => let l' := eval vm_compute in l in change l with l' end;
  repeat constructor; vm_compute; congruence.
Defined.

Lemma smn_map_base0_reprogram_witness :
  let '(s1, rc, p) := pspStubSmnPhysMap smn_base0_state 4660 in
  rc = INF_SUCCESS
  /\ aSmnMapSlots s1 = <[0%nat := mkSmnMap 0 3]> (aSmnMapSlots smn_base0_state)
  /\ w_reg_log (hw s1) = w_reg_log (hw smn_base0_state) ++ [(52559872, 0)].
Proof.
  destruct (pspStubSmnPhysMap smn_base0_state 4660) as [[s1 rc] p] eqn:E.
  destruct (smn_map_base0_reprogram smn_base0_state s1 4660 0 (mkSmnMap 0 2) rc p
              ltac:(split; vm_compute; congruence) ltac:(split; vm_compute; congruence)
              ltac:(vm_compute; reflexivity) E) as (H1 & _ & H3 & _ & H5).
  split; [exact H1|]. split; [exact H3|exact H5].
Defined.

Lemma x86_xfer_keeps_slots_witness :
  slots_of (fst (pspStubPduProcessPspX86MemXfer x86_xfer_state 16 false)) = slots_of x86_xfer_state
  /\ slots_of (fst (pspStubPduProcessPspX86MmioXfer x86_xfer_state 16 false))
     = slots_of x86_xfer_state.
Proof.
  apply x86_xfer_keeps_slots; [slots_wf_by_computation | vm_compute; reflexivity].
Defined.

Lemma smn_xfer_keeps_slots_witness :
  slots_of (fst (pspStubPduProcessPspSmnXfer smn_base0_state 16 true)) = slots_of smn_base0_state.
Proof.
  apply smn_xfer_keeps_slots; [slots_wf_by_computation | vm_compute; reflexivity].
Defined.

(* ------------------------------------------------------------------ *)
(** ** The receive window *)

Lemma le_val_nonneg (bs : list Z) : Forall byte_ok bs -> 0 <= le_val bs.
Proof.
  induction 1 as [|b bs Hb _ IH]; cbn; [lia|]. unfold byte_ok in Hb. lia.
Qed.

Lemma sublist_bytes (off n : nat) (bs : list Z) :
  Forall byte_ok bs -> Forall byte_ok (sublist off n bs).
Proof. intros H. unfold sublist. apply Forall_take, Forall_drop, H. Qed.

Lemma buf_write_length (off : Z) (bs buf : list Z) :
  0 <= off -> off + Z.of_nat (length bs) <= Z.of_nat (length buf) ->
  length (buf_write off bs buf) = length buf.
Proof.
  intros H1 H2. unfold buf_write. rewrite !length_app, length_take, length_drop. lia.
Qed.

Lemma buf_write_bytes (off : Z) (bs buf : list Z) :
  Forall byte_ok bs -> Forall byte_ok buf -> Forall byte_ok (buf_write off bs buf).
Proof.
  intros H1 H2. unfold buf_write.
  apply Forall_app; split; [apply Forall_take, H2|].
  apply Forall_app; split; [exact H1|apply Forall_drop, H2].
Qed.

Lemma recv_reset_inv (s : PSPSTUBSTATE) :
  length (abPdu s) = Z.to_nat _4K -> Forall byte_ok (abPdu s) ->
  Forall byte_ok (w_rx (hw s)) -> (forall k, Forall byte_ok (w_arrive (hw s) k)) ->
  recv_inv (pspStubPduRecvReset s).
Proof. intros H1 H2 H3 H4. repeat split; cbn; auto; unfold cbHdr; lia. Qed.

Lemma hdr_validate_cbPdu (s : PSPSTUBSTATE) (h : PSPSERIALPDUHDR) :
  pspStubPduHdrValidate s h = 0 -> cbPdu h <= 4064.
Proof.
  unfold pspStubPduHdrValidate.
  destruct (negb _); [discriminate|].
  destruct (cbPdu h >? _) eqn:E; [discriminate|].
  intros _. rewrite Z.gtb_ltb, Z.ltb_ge in E. unfold _4K, cbHdr, cbFooter in E. cbn in E. lia.
Qed.

Lemma recv_advance_inv (s : PSPSTUBSTATE) :
  recv_inv s -> cbPduRecvLeft s = 0 ->
  recv_inv (fst (fst (pspStubPduRecvAdvance s))).
Proof.
  intros (Hl & Hb & Hrx & Har & Ho & Hc & Hlim) H0.
  unfold pspStubPduRecvAdvance.
  destruct (enmPduRecvState s) eqn:Es; cbn [recv_limit] in Hlim.
  - cbn [fst]. repeat split; auto. rewrite Es. exact Hlim.
  - set (h := hdr_decode (abPdu s)).
    assert (Hcb : 0 <= cbPdu h)
      by (apply le_val_nonneg, sublist_bytes, Hb).
    destruct (pspStubPduHdrValidate s h =? 0) eqn:Ev.
    + apply Z.eqb_eq, hdr_validate_cbPdu in Ev.
      destruct (negb (cbPdu h =? 0)); cbn [fst];
        repeat split; cbn [abPdu hw offPduRecv cbPduRecvLeft enmPduRecvState set_recv recv_limit];
        auto; unfold cbFooter; lia.
    + apply recv_reset_inv; auto.
  - cbn [fst]. repeat split; cbn; auto; unfold cbFooter; lia.
  - destruct (pspStubPduValidate s =? 0); cbn [fst]; apply recv_reset_inv; auto.
Qed.

Lemma recv_body_inv (s : PSPSTUBSTATE) (rc : Z) (pdu : bool) :
  recv_inv s -> recv_inv (fst (fst (fst (pspStubPduRecvBody s rc pdu)))).
Proof.
  intros (Hl & Hb & Hrx & Har & Ho & Hc & Hlim).
  unfold pspStubPduRecvBody, PSPUartGetDataAvail.
  set (rx := w_rx (hw s) ++ w_arrive (hw s) (w_npoll (hw s))).
  assert (Hrx' : Forall byte_ok rx) by (apply Forall_app; auto).
  cbv zeta.
  destruct (Z.of_nat (length rx) =? 0) eqn:Ea.
  { cbn [fst]. repeat split; cbn; auto. }
  apply Z.eqb_neq in Ea.
  set (n := Z.min (Z.of_nat (length rx)) (cbPduRecvLeft s)).
  unfold PSPUartRead.
  cbn [hw set_hw w_upd_rx w_rd_rc w_nrd w_npoll w_rx w_arrive cbPduRecvLeft offPduRecv
       enmPduRecvState abPdu]. fold n.
  assert (Hn0 : 0 <= n) by lia.
  assert (Hn1 : n <= Z.of_nat (length rx)) by lia.
  assert (Hn2 : n <= cbPduRecvLeft s) by lia.
  destruct (w_rd_rc (hw s) (w_nrd (hw s)) =? 0) eqn:Er; cbv beta iota; rewrite Er.
  2:{ cbn [fst]. repeat split; cbn; auto. }
  cbn [hw set_hw w_upd_rx set_abPdu abPdu offPduRecv cbPduRecvLeft enmPduRecvState set_recv].
  set (bs := take (Z.to_nat n) rx).
  assert (Hbs : length bs = Z.to_nat n) by (unfold bs; rewrite length_take; lia).
  assert (Hlim4 : recv_limit (enmPduRecvState s) <= 4096)
    by (destruct (enmPduRecvState s); cbn; lia).
  assert (Hw : wrap32 (offPduRecv s + n) = offPduRecv s + n)
    by (unfold wrap32; apply Z.mod_small; simpl; lia).
  rewrite Hw.
  match goal with |- context [set_recv ?e ?l ?o ?x] => set (s4 := set_recv e l o x) end.
  assert (H4 : recv_inv s4).
  { unfold s4. repeat split; cbn [abPdu hw set_recv set_abPdu set_hw w_upd_rx w_rx w_arrive
                                 offPduRecv cbPduRecvLeft enmPduRecvState]; auto.
    - rewrite buf_write_length; [exact Hl|lia|]. rewrite Hl. unfold _4K. lia.
    - apply buf_write_bytes; [apply Forall_take, Hrx'|exact Hb].
    - apply Forall_drop, Hrx'.
    - lia.
    - lia.
    - lia. }
  destruct (cbPduRecvLeft s - n =? 0) eqn:E0.
  - apply Z.eqb_eq in E0.
    pose proof (recv_advance_inv s4 H4 E0) as H5.
    destruct (pspStubPduRecvAdvance s4) as [[s5 r5] p5]. exact H5.
  - exact H4.
Qed.

Lemma millies_inv (s : PSPSTUBSTATE) : recv_inv s -> recv_inv (fst (pspStubGetMillies s)).
Proof. intros (H1 & H2 & H3 & H4 & H5 & H6 & H7). repeat split; cbn; auto. Qed.

Lemma recv_cond_inv (s : PSPSTUBSTATE) (rc ts c : Z) :
  recv_inv s -> recv_inv (fst (pspStubPduRecvCond s rc ts c)).
Proof.
  intros H. unfold pspStubPduRecvCond.
  destruct (rc =? 0).
  - pose proof (millies_inv s H) as H'.
    destruct (pspStubGetMillies s) as [s1 now]. exact H'.
  - exact H.
Qed.

Lemma recv_loop_inv (fuel : nat) (s : PSPSTUBSTATE) (rc : Z) (pdu : bool) (ts c : Z)
    (s' : PSPSTUBSTATE) (rc' : Z) (pdu' : bool) :
  recv_inv s -> pspStubPduRecvLoop fuel s rc pdu ts c = Some (s', rc', pdu') -> recv_inv s'.
Proof.
  revert s rc pdu. induction fuel as [|fuel IH]; intros s rc pdu H E; [discriminate|].
  cbn [pspStubPduRecvLoop] in E.
  pose proof (recv_body_inv s rc pdu H) as Hb.
  destruct (pspStubPduRecvBody s rc pdu) as [[[s1 rc1] pdu1] brk]. cbn [fst] in Hb.
  destruct brk; [injection E as <- _ _; exact Hb|].
  pose proof (recv_cond_inv s1 rc1 ts c Hb) as Hc.
  destruct (pspStubPduRecvCond s1 rc1 ts c) as [s2 cont]. cbn [fst] in Hc.
  destruct cont; [exact (IH _ _ _ Hc E)|].
  injection E as <- _ _. exact Hc.
Qed.

(** The stub starts with a receive window inside its 4 KiB buffer, and
    every pspStubPduRecv call keeps it there: the buffer stays 4096 bytes,
    and offPduRecv + cbPduRecvLeft stays at most 24 while a header is
    read, 4088 while a payload is read, 4096 otherwise, so no UART read
    stores past the end of abPdu. *)
Theorem recv_buffer_bounds (w : World) (fuel : nat) (s s' : PSPSTUBSTATE) (c rc : Z) (pdu : bool) :
  Forall byte_ok (w_rx w) -> (forall k, Forall byte_ok (w_arrive w k)) ->
  recv_inv (pspStubInitState w)
  /\ (recv_inv s -> pspStubPduRecv fuel s c = Some (s', rc, pdu) -> recv_inv s').
Proof.
  intros Hrx Har. split.
  - repeat split; cbn; auto; try (unfold cbHdr; lia).
    apply List.Forall_forall. intros x Hx. apply repeat_spec in Hx. subst. unfold byte_ok. lia.
  - intros H E. unfold pspStubPduRecv in E.
    pose proof (millies_inv s H) as H1.
    destruct (pspStubGetMillies s) as [s1 ts]. cbn [fst] in H1.
    destruct (pspStubPduRecvLoop fuel s1 INF_SUCCESS false ts c) as [[[s2 rc2] pdu2]|] eqn:El;
      [|discriminate].
    pose proof (recv_loop_inv _ _ _ _ _ _ _ _ _ H1 El) as H2.
    pose proof (millies_inv s2 H2) as H3.
    destruct (pspStubGetMillies s2) as [s3 now]. cbn [fst] in H3.
    injection E as <- _ _. exact H3.
Qed.

Lemma recv_buffer_bounds_witness :
  let w := test_world (fun k => 500 + Z.of_nat k)
             (ext_pdu 1 PSPSERIALPDURRNID_REQUEST_CONNECT []) 0 0 in
  let r := pspStubPduRecv 60 (pspStubInitState w) 1000 in
  recv_inv (pspStubInitState w)
  /\ (recv_inv (pspStubInitState w) ->
      pspStubPduRecv 60 (pspStubInitState w) 1000
      = Some (fst (fst (default (pspStubInitState w, 0, false) r)),
              snd (fst (default (pspStubInitState w, 0, false) r)),
              snd (default (pspStubInitState w, 0, false) r)) ->
      recv_inv (fst (fst (default (pspStubInitState w, 0, false) r)))).
Proof.
  intros w r.
  apply (recv_buffer_bounds w 60 (pspStubInitState w)); [constructor|].
  intros [|k]; cbn; [|constructor].
  repeat constructor; vm_compute; congruence.
Defined.

(* ------------------------------------------------------------------ *)
(** ** The x86 UART callbacks *)

